(** * pgtrigger.contrib: Protect, FSM, SoftDelete, UpdateSearchVector

    A shallow embedding of [pgtrigger/contrib.py].  The four trigger classes
    render PL/pgSQL text from Python f-strings; the rendering functions are
    transcribed as string concatenations, and the fragment of PL/pgSQL the
    templates produce is given a small syntax and an interpreter, so that
    what a rendered body does to a row can be stated and proved. *)

From Stdlib Require Import String Ascii List ZArith Bool Lia.
From Stdlib Require Import DecimalString DecimalZ.
Import ListNotations.
Open Scope string_scope.
Set Warnings "-register-all".

(** ** Python values and exceptions *)

Module py.

(** The exceptions the module raises or lets through. *)
Inductive exn : Type :=
| ValueError (msg : string)
| RuntimeError (msg : string)
| TypeError (msg : string)
| FieldDoesNotExist (name : string).

(** A call either returns or raises. *)
Inductive result (A : Type) : Type :=
| Ok (a : A)
| Raise (e : exn).
Arguments Ok {A} a.
Arguments Raise {A} e.

Definition bind {A B : Type} (r : result A) (k : A -> result B) : result B :=
  match r with
  | Ok a => k a
  | Raise e => Raise e
  end.

(** The values a keyword argument of [SoftDelete] can hold: [None], a
    [str], a [bool] or an [int]. *)
Inductive value : Type :=
| None_
| Str (s : string)
| Bool (b : bool)
| Int (z : Z).

(** A keyword argument whose default is the sentinel [_unset]: either left
    out by the caller or given. *)
Inductive kwarg (A : Type) : Type :=
| _unset
| given (a : A).
Arguments _unset {A}.
Arguments given {A} a.

(** Truthiness of an optional string: [None] and [''] are falsy. *)
Definition truthy_str (o : option string) : bool :=
  match o with
  | Some (String _ _) => true
  | _ => false
  end.

(** Truthiness of an optional list: [None] and [[]] are falsy. *)
Definition truthy_list {A : Type} (o : option (list A)) : bool :=
  match o with
  | Some (_ :: _) => true
  | _ => false
  end.

(** [a or b] on optional strings and optional lists. *)
Definition or_str (a b : option string) : option string :=
  if truthy_str a then a else b.

Definition or_list {A : Type} (a b : option (list A)) : option (list A) :=
  if truthy_list a then a else b.

(** [str(x)] on the values above. *)
Definition str (v : value) : string :=
  match v with
  | None_ => "None"
  | Str s => s
  | Bool true => "True"
  | Bool false => "False"
  | Int z => NilZero.string_of_int (Z.to_int z)
  end.

(** [c.lower()] on one ASCII character. *)
Definition lower_ascii (c : ascii) : ascii :=
  let n := nat_of_ascii c in
  if andb (Nat.leb 65 n) (Nat.leb n 90) then ascii_of_nat (n + 32) else c.

(** [s.lower()]. *)
Fixpoint lower (s : string) : string :=
  match s with
  | EmptyString => EmptyString
  | String c r => String (lower_ascii c) (lower r)
  end.

(** [sep.join(parts)]. *)
Definition join (sep : string) (parts : list string) : string :=
  String.concat sep parts.

End py.

Import py.

Declare Scope py_scope.
Notation "x <- c ;; k" := (py.bind c (fun x => k))
  (at level 61, c at next level, right associativity) : py_scope.
Open Scope py_scope.

(** The double quote and the line feed, which the templates contain. *)
Definition dq : string := String (ascii_of_nat 34) EmptyString.
Definition nl : string := String (ascii_of_nat 10) EmptyString.

(** ** Model metadata ([model._meta]) *)

(** What the rendering reads off a Django model: the table name, the
    primary key's column, and the column of each named field. *)
Record Model : Type := {
  db_table : string;
  pk_column : string;
  fields : list (string * string)
}.

Fixpoint lookup_field (name : string) (fs : list (string * string)) : option string :=
  match fs with
  | [] => None
  | (f, col) :: rest => if String.eqb f name then Some col else lookup_field name rest
  end.

(** [model._meta.get_field(name).column]; an unknown name (or [None])
    raises [FieldDoesNotExist]. *)
Definition get_field_column (model : Model) (name : option string) : result string :=
  match name with
  | None => Raise (FieldDoesNotExist "None")
  | Some f =>
      match lookup_field f (fields model) with
      | Some col => Ok col
      | None => Raise (FieldDoesNotExist f)
      end
  end.

(** ** What [contrib.py] imports: [pgtrigger.utils] and [pgtrigger.core] *)

Module core.

(** Modelled from the spec: [pgtrigger/core.py] is not part of the sources
    at hand.  The spec's data model gives a trigger a [when] (BEFORE, AFTER,
    INSTEAD OF). *)
Inductive Timing : Type :=
| Before
| After
| InsteadOf.

(** Modelled from the spec: [pgtrigger/core.py] is not part of the sources
    at hand.  An operation is a composite over INSERT, UPDATE and DELETE
    with an optional column-scoped UPDATE OF; [Or a b] is the Python
    expression [a | b]. *)
Inductive Operation : Type :=
| Insert
| Update
| Delete
| UpdateOf (columns : list string)
| Or (a b : Operation).

(** Modelled from the spec: [core.Trigger] is not part of the sources at
    hand; these are the attributes the spec gives a trigger specification. *)
Record Trigger : Type := {
  name : option string;
  when : option Timing;
  operation : option Operation;
  condition : option string
}.

(** The keyword arguments a subclass hands to [super().__init__]. *)
Record kwargs : Type := {
  kw_name : option string;
  kw_when : option Timing;
  kw_operation : option Operation;
  kw_condition : option string
}.

(** What [contrib.py] uses of the two modules without defining it:
    [utils.quote], [str] of an operation, the base constructor (called on
    an object whose class-level attributes are the first argument) and the
    base [render_trigger]. *)
Class api : Type := {
  quote : string -> string;
  Operation_str : Operation -> string;
  Trigger_init : Trigger -> kwargs -> result Trigger;
  Trigger_render_trigger : Trigger -> Model -> option string -> string
}.

(** [str(self.operation)]; an attribute that was never set is [None]. *)
Definition str_operation `{api} (o : option Operation) : string :=
  match o with
  | Some op => Operation_str op
  | None => "None"
  end.

End core.

Import core.

(** ** class Protect *)

Module Protect.

(** Class attribute [when = core.Before]. *)
Definition when : Timing := Before.

(** A [Protect] object is a base trigger: the class adds no attribute and
    no constructor. *)
Definition t : Type := Trigger.

(** The class-level attributes the inherited constructor sees. *)
Definition class_trigger : Trigger :=
  {| name := None; core.when := Some when; core.operation := None; condition := None |}.

(** [Protect(...)]: the class defines no [__init__], so the call runs the
    inherited [core.Trigger.__init__] on an object of this class. *)
Definition __init__ `{api} (kw : kwargs) : result t :=
  Trigger_init class_trigger kw.

Definition get_func `{api} (self : t) (model : Model) : string :=
  "
            RAISE EXCEPTION
                'pgtrigger: Cannot " ++ lower (str_operation (operation self)) ++ " rows from % table',
                TG_TABLE_NAME;
        ".

End Protect.

(** ** class FSM *)

Module FSM.

(** Class attributes; a subclass may set [field] and [transitions]. *)
Definition when : Timing := Before.
Definition operation : Operation := Update.

Record Class_ : Type := {
  cls_field : option string;
  cls_transitions : option (list (string * string))
}.

(** [FSM] itself: [field = None], [transitions = None]. *)
Definition FSM : Class_ := {| cls_field := None; cls_transitions := None |}.

Record t : Type := {
  field : option string;
  transitions : option (list (string * string));
  base : Trigger
}.

Definition class_trigger : Trigger :=
  {| name := None; core.when := Some when; core.operation := Some operation;
     condition := None |}.

Definition __init__ `{api} (cls : Class_) (name condition field : option string)
    (transitions : option (list (string * string))) : result t :=
  let self_field := or_str field (cls_field cls) in
  let self_transitions := or_list transitions (cls_transitions cls) in
  if negb (truthy_str self_field) then
    Raise (ValueError ("Must provide " ++ dq ++ "field" ++ dq ++ " for FSM"))
  else if negb (truthy_list self_transitions) then
    Raise (ValueError ("Must provide " ++ dq ++ "transitions" ++ dq ++ " for FSM"))
  else
    b <- Trigger_init class_trigger
           {| kw_name := name; kw_when := None; kw_operation := None;
              kw_condition := condition |} ;;
    Ok {| field := self_field; transitions := self_transitions; base := b |}.


(** ['{' + ','.join([f'{old}:{new}' for old, new in self.transitions]) + '}'] *)
Definition transition_uris (ts : list (string * string)) : string :=
  "{" ++ join "," (map (fun '(old, new) => old ++ ":" ++ new) ts) ++ "}".

(** The f-string's [{self.field}]: the attribute as [str] formats it. *)
Definition format_field (f : option string) : string :=
  match f with
  | Some s => s
  | None => "None"
  end.

Definition get_func `{api} (self : t) (model : Model) : result string :=
  col <- get_field_column model (field self) ;;
  match transitions self with
  | None => Raise (TypeError "'NoneType' object is not iterable")
  | Some ts =>
      Ok ("
            SELECT CONCAT(OLD." ++ quote col ++ ", ':', NEW." ++ quote col ++ ") = ANY('" ++ transition_uris ts ++ "'::text[])
                INTO _is_valid_transition;

            IF (_is_valid_transition IS FALSE AND OLD." ++ quote col ++ " IS DISTINCT FROM NEW." ++ quote col ++ ") THEN
                RAISE EXCEPTION
                    'pgtrigger: Invalid transition of field " ++ dq ++ format_field (field self) ++ dq ++ " from " ++ dq ++ "%" ++ dq ++ " to " ++ dq ++ "%" ++ dq ++ " on table %',
                    OLD." ++ quote col ++ ",
                    NEW." ++ quote col ++ ",
                    TG_TABLE_NAME;
            ELSE
                RETURN NEW;
            END IF;
        ")
  end.

End FSM.

(** ** class SoftDelete *)

Module SoftDelete.

Definition when : Timing := Before.
Definition operation : Operation := Delete.

(** Class attributes; a subclass may set [field] and [value]. *)
Record Class_ : Type := {
  cls_field : option string;
  cls_value : value
}.

(** [SoftDelete] itself: [field = None], [value = False]. *)
Definition SoftDelete : Class_ := {| cls_field := None; cls_value := Bool false |}.

Record t : Type := {
  field : option string;
  value_ : value;
  base : Trigger
}.

Definition class_trigger : Trigger :=
  {| name := None; core.when := Some when; core.operation := Some operation;
     condition := None |}.

Definition __init__ `{api} (cls : Class_) (name condition field : option string)
    (value : kwarg py.value) : result t :=
  let self_field := or_str field (cls_field cls) in
  let self_value := match value with given v => v | _unset => cls_value cls end in
  if negb (truthy_str self_field) then
    Raise (ValueError ("Must provide " ++ dq ++ "field" ++ dq ++ " for soft delete"))
  else
    b <- Trigger_init class_trigger
           {| kw_name := name; kw_when := None; kw_operation := None;
              kw_condition := condition |} ;;
    Ok {| field := self_field; value_ := self_value; base := b |}.

(** The local function [_render_value] of [get_func]. *)
Definition _render_value (self : t) : string :=
  match value_ self with
  | None_ => "NULL"
  | Str s => "'" ++ s ++ "'"
  | v => str v
  end.

Definition get_func `{api} (self : t) (model : Model) : result string :=
  soft_field <- get_field_column model (field self) ;;
  let pk_col := pk_column model in
  Ok ("
            UPDATE " ++ quote (db_table model) ++ "
            SET " ++ soft_field ++ " = " ++ _render_value self ++ "
            WHERE " ++ quote pk_col ++ " = OLD." ++ quote pk_col ++ ";
            RETURN NULL;
        ").

End SoftDelete.

(** ** class UpdateSearchVector *)

Module UpdateSearchVector.

Definition when : Timing := Before.

(** Class attributes; [__name__] is the class's name. *)
Record Class_ : Type := {
  __name__ : string;
  cls_vector_field : option string;
  cls_document_fields : option (list string);
  cls_config_name : option string
}.

Definition UpdateSearchVector : Class_ :=
  {| __name__ := "UpdateSearchVector";
     cls_vector_field := None;
     cls_document_fields := None;
     cls_config_name := Some "pg_catalog.english" |}.

Record t : Type := {
  __class__ : Class_;
  vector_field : option string;
  document_fields : option (list string);
  config_name : option string;
  base : Trigger
}.

Definition class_trigger : Trigger :=
  {| name := None; core.when := Some when; core.operation := None; condition := None |}.

(** The operation is built from the [document_fields] argument, not from
    [self.document_fields]: unpacking [None] is a type error, and what
    [UpdateOf] does with no column is the base's concern. *)
Definition __init__ `{api} (cls : Class_) (name vector_field : option string)
    (document_fields : option (list string)) (config_name : option string) : result t :=
  let self_vector_field := or_str vector_field (cls_vector_field cls) in
  let self_document_fields := or_list document_fields (cls_document_fields cls) in
  let self_config_name := or_str config_name (cls_config_name cls) in
  if negb (truthy_str self_vector_field) then
    Raise (ValueError ("Must provide " ++ dq ++ "vector_field" ++ dq ++ " to update search vector"))
  else if negb (truthy_list self_document_fields) then
    Raise (ValueError ("Must provide " ++ dq ++ "document_fields" ++ dq ++ " to update search vector"))
  else if negb (truthy_str self_config_name) then
    Raise (ValueError ("Must provide " ++ dq ++ "config_name" ++ dq ++ " to update search vector"))
  else
    match document_fields with
    | None => Raise (TypeError "argument after * must be an iterable, not NoneType")
    | Some cols =>
        b <- Trigger_init class_trigger
               {| kw_name := name; kw_when := None;
                  kw_operation := Some (Or Insert (UpdateOf cols));
                  kw_condition := None |} ;;
        Ok {| __class__ := cls;
              vector_field := self_vector_field;
              document_fields := self_document_fields;
              config_name := self_config_name;
              base := b |}
    end.

Definition ignore (self : t) (model : Model) : result unit :=
  Raise (RuntimeError ("Cannot ignore " ++ __name__ (__class__ self) ++ " triggers")).

Definition render_func (self : t) (model : Model) : string := "".

(** [[model._meta.get_field(field).column for field in self.document_fields]] *)
Fixpoint document_cols (model : Model) (fs : list string) : result (list string) :=
  match fs with
  | [] => Ok []
  | f :: rest =>
      col <- get_field_column model (Some f) ;;
      cols <- document_cols model rest ;;
      Ok (col :: cols)
  end.

(** The text bound to [function] before the call to [super().render_trigger]. *)
Definition function_override `{api} (vector_col config_name : string)
    (document_cols : list string) : string :=
  let rendered_document_cols := join ", " (map quote document_cols) in
  "tsvector_update_trigger(" ++ quote vector_col ++ ","
  ++ " " ++ quote config_name ++ ", " ++ rendered_document_cols ++ ")".

(** The [function] argument is overwritten before it is read.  [utils.quote]
    takes a string: a [config_name] that is [None] is a type error. *)
Definition render_trigger `{api} (self : t) (model : Model) (function : option string)
    : result string :=
  match document_fields self with
  | None => Raise (TypeError "'NoneType' object is not iterable")
  | Some fs =>
      cols <- document_cols model fs ;;
      vector_col <- get_field_column model (vector_field self) ;;
      match config_name self with
      | None => Raise (TypeError "quote() of None")
      | Some config =>
          let function := function_override vector_col config cols in
          Ok (Trigger_render_trigger (base self) model (Some function))
      end
  end.

End UpdateSearchVector.

(** ** The PL/pgSQL fragment the templates produce

    The bodies above are text for the database engine.  This module gives
    the statements that occur in them a syntax, the layout the templates
    use, and the engine's evaluation rules for them, so that the rendered
    text can be read back as a program and run on a row. *)

Module plpgsql.

Inductive rowvar : Type :=
| OLD
| NEW.

Inductive expr : Type :=
| Col (r : rowvar) (ident : string)          (* OLD.<ident>, NEW.<ident> *)
| TgTableName                                (* TG_TABLE_NAME *)
| Var (x : string)                           (* a declared variable *)
| TextLit (payload : string)                 (* '<payload>' *)
| Concat (args : list expr)                  (* CONCAT(a, b, ...) *)
| EqAny (e : expr) (payload : string)        (* e = ANY('<payload>'::text[]) *)
| IsFalse (e : expr)                         (* e IS FALSE *)
| IsDistinctFrom (a b : expr)                (* a IS DISTINCT FROM b *)
| And (a b : expr).                          (* a AND b *)

Inductive stmt : Type :=
| SelectInto (e : expr) (x : string)
| If (c : expr) (th el : list stmt)
| RaiseException (fmt : string) (args : list expr)
| Return (r : option rowvar)
| UpdateWhereOld (table column literal key : string).

(** *** Concrete syntax, in the layout of the templates *)

Definition print_rowvar (r : rowvar) : string :=
  match r with
  | OLD => "OLD"
  | NEW => "NEW"
  end.

Fixpoint print_expr (e : expr) : string :=
  match e with
  | Col r ident => print_rowvar r ++ "." ++ ident
  | TgTableName => "TG_TABLE_NAME"
  | Var x => x
  | TextLit payload => "'" ++ payload ++ "'"
  | Concat args => "CONCAT(" ++ join ", " (map print_expr args) ++ ")"
  | EqAny e payload => print_expr e ++ " = ANY('" ++ payload ++ "'::text[])"
  | IsFalse e => print_expr e ++ " IS FALSE"
  | IsDistinctFrom a b => print_expr a ++ " IS DISTINCT FROM " ++ print_expr b
  | And a b => print_expr a ++ " AND " ++ print_expr b
  end.

Fixpoint spaces (n : nat) : string :=
  match n with
  | O => EmptyString
  | S k => String " " (spaces k)
  end.

(** One statement, indented by [i]; continuation lines and nested blocks
    are indented by four more.  [SELECT ... INTO] is followed by an empty
    line. *)
Fixpoint print_stmt (i : nat) (s : stmt) : string :=
  match s with
  | SelectInto e x =>
      spaces i ++ "SELECT " ++ print_expr e ++ nl
      ++ spaces (i + 4) ++ "INTO " ++ x ++ ";" ++ nl ++ nl
  | If c th el =>
      spaces i ++ "IF (" ++ print_expr c ++ ") THEN" ++ nl
      ++ String.concat "" (map (print_stmt (i + 4)) th)
      ++ spaces i ++ "ELSE" ++ nl
      ++ String.concat "" (map (print_stmt (i + 4)) el)
      ++ spaces i ++ "END IF;" ++ nl
  | RaiseException fmt args =>
      spaces i ++ "RAISE EXCEPTION" ++ nl
      ++ spaces (i + 4) ++ "'" ++ fmt ++ "'"
      ++ String.concat "" (map (fun a => "," ++ nl ++ spaces (i + 4) ++ print_expr a) args)
      ++ ";" ++ nl
  | Return r =>
      spaces i ++ "RETURN "
      ++ match r with Some v => print_rowvar v | None => "NULL" end ++ ";" ++ nl
  | UpdateWhereOld table column literal key =>
      spaces i ++ "UPDATE " ++ table ++ nl
      ++ spaces i ++ "SET " ++ column ++ " = " ++ literal ++ nl
      ++ spaces i ++ "WHERE " ++ key ++ " = OLD." ++ key ++ ";" ++ nl
  end.

(** A function body as the templates lay it out: a line feed, the
    statements at twelve columns, and eight trailing blanks. *)
Definition print_body (body : list stmt) : string :=
  nl ++ String.concat "" (map (print_stmt 12) body) ++ spaces 8.

(** *** Values, rows and the state a trigger function runs in *)

Inductive value : Type :=
| VNull
| VBool (b : bool)
| VInt (z : Z)
| VText (s : string).

(** A row gives each column, named as the statement names it, a value.
    A cell is looked up by the identifier as it is written; which
    spellings name one column is the engine's catalog and is not
    modelled, so the properties below read a row through one spelling
    only. *)
Definition row : Type := string -> value.

(** The row pair and table name the engine passes to a row-level trigger. *)
Record frame : Type := {
  old : row;
  new : row;
  tg_table_name : string
}.

(** Local variables and the tables, each named as the statement names it. *)
Record state : Type := {
  vars : string -> value;
  tables : string -> list row
}.

Definition set_var (x : string) (v : value) (st : state) : state :=
  {| vars := fun y => if String.eqb y x then v else vars st y;
     tables := tables st |}.

Definition set_col (c : string) (v : value) (r : row) : row :=
  fun y => if String.eqb y c then v else r y.

Definition set_table (t : string) (rows : list row) (st : state) : state :=
  {| vars := vars st;
     tables := fun y => if String.eqb y t then rows else tables st y |}.

(** *** Lexical rules *)

(** The value of a string constant from the text between its quotes
    (standard-conforming strings): two quotes stand for one.  A single
    quote ends the constant early and the engine reads on after it; what
    it reads there is outside this fragment, so for such a payload the
    reader gives no value.  The general properties below are stated for
    payloads without a quote, where the text between the quotes is the
    whole constant. *)
Fixpoint string_constant (payload : string) : option string :=
  match payload with
  | EmptyString => Some EmptyString
  | String c r =>
      if Ascii.eqb c "'" then
        match r with
        | String c' r' =>
            if Ascii.eqb c' "'" then option_map (String "'") (string_constant r')
            else None
        | EmptyString => None
        end
      else option_map (String c) (string_constant r)
  end.

(** Blank characters of the array input syntax. *)
Definition is_space (c : ascii) : bool :=
  let n := nat_of_ascii c in
  orb (Nat.eqb n 32) (andb (Nat.leb 9 n) (Nat.leb n 13)).

Fixpoint skip_spaces (s : string) : string :=
  match s with
  | String c r => if is_space c then skip_spaces r else s
  | EmptyString => EmptyString
  end.

Fixpoint all_space (s : string) : bool :=
  match s with
  | String c r => andb (is_space c) (all_space r)
  | EmptyString => true
  end.

Definition snoc (s : string) (c : ascii) : string := s ++ String c EmptyString.

(** Where the reader of an array literal stands within one element. *)
Inductive item_state : Type :=
| Leading                                          (* nothing but blanks so far *)
| Bare (taken held : string) (escaped : bool)      (* unquoted; trailing blanks held back *)
| InQuotes (taken : string)                        (* between double quotes *)
| Closed (taken : string).                         (* after the closing double quote *)

(** The element read when a delimiter is met: an empty element is
    malformed, and an unquoted, unescaped NULL (in any case) is the null
    element. *)
Definition finish (st : item_state) : option (option string) :=
  match st with
  | Leading => None
  | Bare taken _ escaped =>
      if andb (negb escaped) (String.eqb (lower taken) "null") then Some None
      else Some (Some taken)
  | InQuotes _ => None
  | Closed taken => Some (Some taken)
  end.

(** The elements of a one-dimensional array literal after its opening
    brace.  A backslash takes the next character literally; double quotes
    delimit an element; a nested brace (a further dimension) is outside
    this fragment and is refused. *)
Fixpoint items (st : item_state) (acc : list (option string)) (s : string)
    : option (list (option string)) :=
  match s with
  | EmptyString => None
  | String c r =>
      match st with
      | InQuotes taken =>
          if Ascii.eqb c "\" then
            match r with
            | String c' r' => items (InQuotes (snoc taken c')) acc r'
            | EmptyString => None
            end
          else if Ascii.eqb c (ascii_of_nat 34) then items (Closed taken) acc r
          else items (InQuotes (snoc taken c)) acc r
      | Leading | Bare _ _ _ | Closed _ =>
          if Ascii.eqb c "\" then
            match r with
            | String c' r' =>
                match st with
                | Leading => items (Bare (String c' EmptyString) EmptyString true) acc r'
                | Bare taken held _ => items (Bare (snoc (taken ++ held) c') EmptyString true) acc r'
                | _ => None
                end
            | EmptyString => None
            end
          else if Ascii.eqb c "," then
            match finish st with
            | Some it => items Leading (acc ++ [it])%list r
            | None => None
            end
          else if Ascii.eqb c "}" then
            match finish st with
            | Some it => if all_space r then Some (acc ++ [it])%list else None
            | None => None
            end
          else if Ascii.eqb c "{" then None
          else if Ascii.eqb c (ascii_of_nat 34) then
            match st with
            | Leading => items (InQuotes EmptyString) acc r
            | _ => None
            end
          else if is_space c then
            match st with
            | Leading => items Leading acc r
            | Bare taken held escaped => items (Bare taken (snoc held c) escaped) acc r
            | _ => items st acc r
            end
          else
            match st with
            | Leading => items (Bare (String c EmptyString) EmptyString false) acc r
            | Bare taken held escaped => items (Bare (snoc (taken ++ held) c) EmptyString escaped) acc r
            | _ => None
            end
      end
  end.

(** The input conversion of [text[]] on a one-dimensional literal:
    [None] when the literal is malformed. *)
Definition array_in (s : string) : option (list (option string)) :=
  match skip_spaces s with
  | String c r =>
      if Ascii.eqb c "{" then
        match skip_spaces r with
        | String c' r' =>
            if Ascii.eqb c' "}" then (if all_space r' then Some [] else None)
            else items Leading [] r
        | EmptyString => None
        end
      else None
  | EmptyString => None
  end.

(** The message of [RAISE EXCEPTION]: each [%] takes the next argument and
    [%%] is a percent sign; too few or too many arguments are refused. *)
Fixpoint format_message (fmt : string) (args : list string) : option string :=
  match fmt with
  | EmptyString =>
      match args with
      | [] => Some EmptyString
      | _ :: _ => None
      end
  | String c r =>
      if Ascii.eqb c "%" then
        let take :=
          match args with
          | a :: args' => option_map (append a) (format_message r args')
          | [] => None
          end in
        match r with
        | String c' r' =>
            if Ascii.eqb c' "%" then option_map (String "%") (format_message r' args)
            else take
        | EmptyString => take
        end
      else option_map (String c) (format_message r args)
  end.

(** A constant as [UPDATE ... SET column = <literal>] reads it: an
    integer, a quoted string, or one of the keywords NULL, TRUE and FALSE
    in any case.  As for [string_constant], a quoted string with a lone
    quote inside is outside the fragment and gets no value. *)
Definition unquote (text : string) : option string :=
  match text with
  | String c r =>
      if andb (Ascii.eqb c "'") (Nat.ltb 0 (String.length r))
      then
        if String.eqb (substring (String.length r - 1) 1 r) "'"
        then string_constant (substring 0 (String.length r - 1) r)
        else None
      else None
  | EmptyString => None
  end.

Definition literal_value (text : string) : option value :=
  match NilZero.int_of_string text with
  | Some d => Some (VInt (Z.of_int d))
  | None =>
      match unquote text with
      | Some s => Some (VText s)
      | None =>
          let word := lower text in
          if String.eqb word "null" then Some VNull
          else if String.eqb word "true" then Some (VBool true)
          else if String.eqb word "false" then Some (VBool false)
          else None
      end
  end.

(** *** Evaluation *)

(** A value as [CONCAT] and [RAISE] print it. *)
Definition text_of (v : value) : string :=
  match v with
  | VNull => EmptyString
  | VBool true => "t"
  | VBool false => "f"
  | VInt z => NilZero.string_of_int (Z.to_int z)
  | VText s => s
  end.

Definition raise_text (v : value) : string :=
  match v with
  | VNull => "<NULL>"
  | _ => text_of v
  end.

Definition is_null (o : option string) : bool :=
  match o with
  | None => true
  | Some _ => false
  end.

Definition elem_eqb (s : string) (o : option string) : bool :=
  match o with
  | Some x => String.eqb x s
  | None => false
  end.

(** [v = ANY(arr)]: true when an element equals [v]; otherwise null when
    [v] or an element is null; otherwise false. *)
Definition eq_any (v : value) (arr : list (option string)) : option value :=
  match v with
  | VText s =>
      if existsb (elem_eqb s) arr then Some (VBool true)
      else if existsb is_null arr then Some VNull
      else Some (VBool false)
  | VNull =>
      match arr with
      | [] => Some (VBool false)
      | _ :: _ => Some VNull
      end
  | _ => None
  end.

(** [a IS DISTINCT FROM b]: null-safe inequality of two values of one type. *)
Definition is_distinct_from (a b : value) : option value :=
  match a, b with
  | VNull, VNull => Some (VBool false)
  | VNull, _ | _, VNull => Some (VBool true)
  | VBool x, VBool y => Some (VBool (negb (Bool.eqb x y)))
  | VInt x, VInt y => Some (VBool (negb (Z.eqb x y)))
  | VText x, VText y => Some (VBool (negb (String.eqb x y)))
  | _, _ => None
  end.

(** Three-valued conjunction. *)
Definition sql_and (a b : value) : option value :=
  match a, b with
  | VBool false, (VBool _ | VNull) => Some (VBool false)
  | (VBool true | VNull), VBool false => Some (VBool false)
  | VBool true, VBool true => Some (VBool true)
  | VBool true, VNull | VNull, VBool true | VNull, VNull => Some VNull
  | _, _ => None
  end.

(** [a = b] in a WHERE clause holds when both are non-null and equal. *)
Definition sql_eqb (a b : value) : bool :=
  match a, b with
  | VBool x, VBool y => Bool.eqb x y
  | VInt x, VInt y => Z.eqb x y
  | VText x, VText y => String.eqb x y
  | _, _ => false
  end.

Fixpoint sequence {A : Type} (l : list (option A)) : option (list A) :=
  match l with
  | [] => Some []
  | None :: _ => None
  | Some a :: r => option_map (cons a) (sequence r)
  end.

(** The value of an expression; [None] when the engine rejects it. *)
Fixpoint eval (f : frame) (st : state) (e : expr) : option value :=
  match e with
  | Col OLD ident => Some (old f ident)
  | Col NEW ident => Some (new f ident)
  | TgTableName => Some (VText (tg_table_name f))
  | Var x => Some (vars st x)
  | TextLit payload => option_map VText (string_constant payload)
  | Concat args =>
      option_map (fun vs => VText (String.concat "" (map text_of vs)))
                 (sequence (map (eval f st) args))
  | EqAny e payload =>
      match eval f st e, string_constant payload with
      | Some v, Some text =>
          match array_in text with
          | Some arr => eq_any v arr
          | None => None
          end
      | _, _ => None
      end
  | IsFalse e =>
      match eval f st e with
      | Some (VBool b) => Some (VBool (negb b))
      | Some VNull => Some (VBool false)
      | _ => None
      end
  | IsDistinctFrom a b =>
      match eval f st a, eval f st b with
      | Some x, Some y => is_distinct_from x y
      | _, _ => None
      end
  | And a b =>
      match eval f st a, eval f st b with
      | Some x, Some y => sql_and x y
      | _, _ => None
      end
  end.

(** How a statement ends: control goes on, the function returns a row
    variable (or NULL, which suppresses the operation), an exception is
    raised, or the engine rejects the statement.  The UPDATE of [exec]
    writes the constant into the cell as it stands: the type and range of
    the column and the resolution of the unquoted column name are the
    engine's and are not modelled, and no property below says what an
    UPDATE stores. *)
Inductive flow : Type :=
| Continue (st : state)
| Returned (st : state) (r : option rowvar)
| Raised (msg : string)
| Rejected.

Fixpoint exec (f : frame) (s : stmt) (st : state) : flow :=
  let block :=
    fix block (l : list stmt) (st : state) : flow :=
      match l with
      | [] => Continue st
      | s :: rest =>
          match exec f s st with
          | Continue st' => block rest st'
          | other => other
          end
      end in
  match s with
  | SelectInto e x =>
      match eval f st e with
      | Some v => Continue (set_var x v st)
      | None => Rejected
      end
  | If c th el =>
      match eval f st c with
      | Some (VBool true) => block th st
      | Some (VBool false) | Some VNull => block el st
      | _ => Rejected
      end
  | RaiseException fmt args =>
      match string_constant fmt, sequence (map (eval f st) args) with
      | Some text, Some vs =>
          match format_message text (map raise_text vs) with
          | Some msg => Raised msg
          | None => Rejected
          end
      | _, _ => Rejected
      end
  | Return r => Returned st r
  | UpdateWhereOld table column literal key =>
      match literal_value literal with
      | Some v =>
          Continue
            (set_table table
               (map (fun r => if sql_eqb (r key) (old f key) then set_col column v r else r)
                    (tables st table))
               st)
      | None => Rejected
      end
  end.

Fixpoint exec_block (f : frame) (l : list stmt) (st : state) : flow :=
  match l with
  | [] => Continue st
  | s :: rest =>
      match exec f s st with
      | Continue st' => exec_block f rest st'
      | other => other
      end
  end.

(** What calling a trigger function yields. *)
Inductive outcome : Type :=
| Result (tables : string -> list row) (r : option rowvar)
| Exception (msg : string)
| EngineError.

(** Running a body on a row pair: the declared variables start null, and
    reaching the end without RETURN is an engine error. *)
Definition run (f : frame) (tables : string -> list row) (body : list stmt) : outcome :=
  match exec_block f body {| vars := fun _ => VNull; tables := tables |} with
  | Returned st r => Result (plpgsql.tables st) r
  | Raised msg => Exception msg
  | Continue _ | Rejected => EngineError
  end.

End plpgsql.

Import plpgsql.

(** ** The rendered bodies read back as programs

    Each template above is the concrete syntax of one of the statement
    lists below ([Protect_get_func_parses], [FSM_get_func_parses] and
    [SoftDelete_get_func_parses] prove it). *)

Module parsed.



Definition FSM_format (field : string) : string :=
  "pgtrigger: Invalid transition of field " ++ dq ++ field ++ dq
  ++ " from " ++ dq ++ "%" ++ dq ++ " to " ++ dq ++ "%" ++ dq ++ " on table %".

(** The guard of the FSM body. *)
Definition FSM_guard (qcol : string) : expr :=
  And (IsFalse (Var "_is_valid_transition"))
      (IsDistinctFrom (Col OLD qcol) (Col NEW qcol)).

Definition FSM_check (qcol field : string) : stmt :=
  If (FSM_guard qcol)
     [ RaiseException (FSM_format field) [Col OLD qcol; Col NEW qcol; TgTableName] ]
     [ Return (Some NEW) ].

Definition FSM_body (qcol field : string) (ts : list (string * string)) : list stmt :=
  [ SelectInto
      (EqAny (Concat [Col OLD qcol; TextLit ":"; Col NEW qcol]) (FSM.transition_uris ts))
      "_is_valid_transition";
    FSM_check qcol field ].

Definition SoftDelete_body `{api} (self : SoftDelete.t) (model : Model) (soft_field : string)
    : list stmt :=
  [ UpdateWhereOld (quote (db_table model)) soft_field (SoftDelete._render_value self)
                   (quote (pk_column model));
    Return None ].

End parsed.

Import parsed.

(** ** Predicates on the text that is spliced into the templates *)

Fixpoint all_chars (p : ascii -> bool) (s : string) : bool :=
  match s with
  | EmptyString => true
  | String c r => andb (p c) (all_chars p r)
  end.

(** No single quote: the text stays inside the string constant it is
    spliced into. *)
Definition quote_free (s : string) : bool :=
  all_chars (fun c => negb (Ascii.eqb c "'")) s.


(** A character that stands for itself in an unquoted element of an array
    literal inside a string constant. *)
Definition elem_char (c : ascii) : bool :=
  negb (orb (Ascii.eqb c "'")
       (orb (Ascii.eqb c ",")
       (orb (Ascii.eqb c "{")
       (orb (Ascii.eqb c "}")
       (orb (Ascii.eqb c (ascii_of_nat 34))
       (orb (Ascii.eqb c "\") (is_space c))))))).

(** Such a character that is not the separator of the FSM encoding. *)
Definition state_char (c : ascii) : bool :=
  andb (elem_char c) (negb (Ascii.eqb c ":")).

Definition plain_state (s : string) : bool := all_chars state_char s.

Definition plain_transitions (ts : list (string * string)) : bool :=
  forallb (fun '(o, n) => andb (plain_state o) (plain_state n)) ts.


(** Membership of a pair of states in a transition list. *)
Definition declared (ts : list (string * string)) (o n : string) : bool :=
  existsb (fun '(o', n') => andb (String.eqb o' o) (String.eqb n' n)) ts.

(** The message the FSM body raises for a move from [o] to [n]. *)
Definition FSM_message (field o n table : string) : string :=
  "pgtrigger: Invalid transition of field " ++ dq ++ field ++ dq
  ++ " from " ++ dq ++ o ++ dq ++ " to " ++ dq ++ n ++ dq ++ " on table " ++ table.


(** The encoding of one transition in the array literal. *)
Definition uri (t : string * string) : string := fst t ++ ":" ++ snd t.


(** The value a Python constant stands for in the database. *)
Definition denote (v : py.value) : plpgsql.value :=
  match v with
  | None_ => VNull
  | Str s => VText s
  | Bool b => VBool b
  | Int z => VInt z
  end.

(** ** Operation scope and a reference instance of the imported names *)



Module reference.

(** Modelled from the spec: [pgtrigger/utils.py] is not part of the
    sources at hand; identifiers are quoted by wrapping them in double
    quotes. *)
Definition quote (label : string) : string := dq ++ label ++ dq.

(** Modelled from the spec: the operation as the CREATE TRIGGER clause
    names it, [<operation>[ OF <cols>]], composites joined by OR. *)
Fixpoint Operation_str (op : Operation) : string :=
  match op with
  | Insert => "INSERT"
  | Update => "UPDATE"
  | Delete => "DELETE"
  | UpdateOf columns => "UPDATE OF " ++ join ", " (map quote columns)
  | Or a b => Operation_str a ++ " OR " ++ Operation_str b
  end.

Definition or_else {A : Type} (a b : option A) : option A :=
  match a with
  | Some _ => a
  | None => b
  end.

(** Modelled from the spec: the base constructor keeps each argument that
    is given and the class-level attribute otherwise; a trigger with no
    [when] or no [operation] is a construction-time failure. *)
Definition Trigger_init (cls : Trigger) (kw : kwargs) : result Trigger :=
  let self :=
    {| name := or_str (kw_name kw) (name cls);
       when := or_else (kw_when kw) (when cls);
       operation := or_else (kw_operation kw) (operation cls);
       condition := or_str (kw_condition kw) (condition cls) |} in
  match when self, operation self with
  | None, _ => Raise (ValueError "Invalid when")
  | _, None => Raise (ValueError "Invalid operation")
  | Some _, Some _ => Ok self
  end.

Definition Timing_str (w : Timing) : string :=
  match w with
  | Before => "BEFORE"
  | After => "AFTER"
  | InsteadOf => "INSTEAD OF"
  end.

Definition opt_str (o : option string) : string :=
  match o with
  | Some s => s
  | None => "None"
  end.

(** Modelled from the spec: the CREATE TRIGGER statement of section 6 up
    to the function it executes, [CREATE TRIGGER <name> <when>
    <operation>[ OF <cols>] ON <table> FOR EACH ROW [WHEN (<condition>)]]. *)
Definition trigger_clause (self : Trigger) (model : Model) : string :=
  "CREATE TRIGGER " ++ opt_str (name self)
  ++ " " ++ match when self with Some w => Timing_str w | None => "None" end
  ++ " " ++ match operation self with Some op => Operation_str op | None => "None" end
  ++ " ON " ++ quote (db_table model)
  ++ " FOR EACH ROW "
  ++ match condition self with Some c => "WHEN (" ++ c ++ ") " | None => EmptyString end.

(** Modelled from the spec: [render_trigger] ends the statement with
    [EXECUTE FUNCTION <function>(<args>)]; a function override is used
    verbatim, otherwise the generated function's name [pgid] is called
    without arguments. *)
Definition Trigger_render_trigger (pgid : Trigger -> Model -> string)
    (self : Trigger) (model : Model) (function : option string) : string :=
  trigger_clause self model
  ++ "EXECUTE FUNCTION "
  ++ match function with Some f => f | None => pgid self model ++ "()" end.

Definition api (pgid : Trigger -> Model -> string) : core.api :=
  {| core.quote := quote;
     core.Operation_str := Operation_str;
     core.Trigger_init := Trigger_init;
     core.Trigger_render_trigger := Trigger_render_trigger pgid |}.

(** The generated function is named after the trigger. *)
Definition pgid (self : Trigger) (model : Model) : string :=
  "pgtrigger_" ++ opt_str (name self).

End reference.

(** ** Sample data for the concrete runs *)

Module sample.

Definition api : core.api := reference.api reference.pgid.

Definition model : Model :=
  {| db_table := "orders";
     pk_column := "id";
     fields := [("id", "id"); ("status", "status"); ("is_active", "is_active");
                ("title", "title"); ("body", "body"); ("body_vector", "body_vector")] |}.

Definition trigger (op : Operation) : Trigger :=
  {| name := Some "guard"; when := Some Before; operation := Some op; condition := None |}.

Definition fsm (ts : list (string * string)) : FSM.t :=
  {| FSM.field := Some "status"; FSM.transitions := Some ts; FSM.base := trigger Update |}.

Definition soft_delete (v : py.value) : SoftDelete.t :=
  {| SoftDelete.field := Some "is_active"; SoftDelete.value_ := v;
     SoftDelete.base := trigger Delete |}.

Definition blank : row := fun _ => VNull.

(** A row pair that moves [status] from [o] to [n]. *)
Definition move (o n : string) : frame :=
  {| old := set_col (dq ++ "status" ++ dq) (VText o) blank;
     new := set_col (dq ++ "status" ++ dq) (VText n) blank;
     tg_table_name := "orders" |}.

Definition no_tables : string -> list row := fun _ => [].

(** A model whose columns are not named as its fields are. *)
Definition renamed : Model :=
  {| db_table := "articles";
     pk_column := "article_id";
     fields := [("id", "article_id"); ("title", "title_text"); ("body", "body_text");
                ("body_vector", "search_tsv")] |}.

End sample.

(** ** Further notions used by the properties below *)

(** What the caller of a trigger function sees of the way its body ends;
    [run] is [outcome_of] on the body started with null variables. *)
Definition outcome_of (fl : flow) : outcome :=
  match fl with
  | Returned st r => Result (tables st) r
  | Raised msg => Exception msg
  | Continue _ | Rejected => EngineError
  end.



(** The model that migration 0008 of the tests creates: [SearchModel] with
    an automatic primary key [id], two search vector fields and two text
    fields; the table name and the columns are Django's defaults for the
    app [tests]. *)
Definition SearchModel : Model :=
  {| db_table := "tests_searchmodel";
     pk_column := "id";
     fields := [("id", "id"); ("body_vector", "body_vector");
                ("title_body_vector", "title_body_vector");
                ("title", "title"); ("body", "body")] |}.

(** * Properties *)

(** ** Strings *)

Lemma append_assoc (a b c : string) : (a ++ b) ++ c = a ++ (b ++ c).
Proof.
  induction a as [|x a IH]; simpl.
  - reflexivity.
  - now rewrite IH.
Qed.

Lemma append_nil_r (a : string) : a ++ EmptyString = a.
Proof.
  induction a as [|x a IH]; simpl; [reflexivity | now rewrite IH].
Qed.

Lemma all_chars_app (p : ascii -> bool) (a b : string) :
  all_chars p (a ++ b) = andb (all_chars p a) (all_chars p b).
Proof.
  induction a as [|x a IH]; simpl.
  - reflexivity.
  - now rewrite IH, andb_assoc.
Qed.

(** ** The templates are the concrete syntax of the parsed bodies *)

Section Parses.
Context `{A : api}.


Lemma FSM_get_func_parses (self : FSM.t) (model : Model) (col : string)
    (ts : list (string * string)) :
  get_field_column model (FSM.field self) = Ok col ->
  FSM.transitions self = Some ts ->
  FSM.get_func self model
  = Ok (print_body (FSM_body (quote col) (FSM.format_field (FSM.field self)) ts)).
Proof.
  intros Hcol Hts. unfold FSM.get_func. rewrite Hcol, Hts.
  cbn [py.bind]. f_equal.
  unfold print_body, FSM_body, FSM_check, FSM_guard, FSM_format, nl, dq.
  cbn [map String.concat print_stmt print_expr print_rowvar spaces Nat.add join].
  repeat (rewrite ?append_assoc; cbn [append]).
  reflexivity.
Qed.

Lemma SoftDelete_get_func_parses (self : SoftDelete.t) (model : Model) (soft_field : string) :
  get_field_column model (SoftDelete.field self) = Ok soft_field ->
  SoftDelete.get_func self model = Ok (print_body (SoftDelete_body self model soft_field)).
Proof.
  intros Hcol. unfold SoftDelete.get_func. rewrite Hcol.
  cbn [py.bind]. f_equal.
  unfold print_body, SoftDelete_body, nl.
  cbn [map String.concat print_stmt print_expr print_rowvar spaces Nat.add].
  repeat (rewrite ?append_assoc; cbn [append]).
  reflexivity.
Qed.

End Parses.

(** ** Lexical facts *)

Lemma string_constant_quote_free (s : string) :
  quote_free s = true -> string_constant s = Some s.
Proof.
  unfold quote_free.
  induction s as [|c s IH]; intros H.
  - reflexivity.
  - cbn in H. apply andb_prop in H as [Hc Hs].
    apply negb_true_iff in Hc.
    cbn [string_constant]. rewrite Hc, (IH Hs). reflexivity.
Qed.





(** ** Reading the array literal of plain transitions *)

Lemma elem_char_spec (c : ascii) :
  elem_char c = true ->
  Ascii.eqb c "'" = false /\ Ascii.eqb c "," = false /\ Ascii.eqb c "{" = false
  /\ Ascii.eqb c "}" = false /\ Ascii.eqb c (ascii_of_nat 34) = false
  /\ Ascii.eqb c "\" = false /\ is_space c = false.
Proof.
  unfold elem_char. intros H. apply negb_true_iff in H.
  do 6 (apply orb_false_iff in H as [? H]). repeat split; assumption.
Qed.

Lemma state_char_elem (s : string) :
  plain_state s = true -> all_chars elem_char s = true.
Proof.
  unfold plain_state.
  induction s as [|c s IH]; cbn; [reflexivity|].
  intros H. apply andb_prop in H as [Hc Hs].
  apply andb_prop in Hc as [Hc _]. now rewrite Hc, IH.
Qed.

Lemma state_char_colon_free (s : string) :
  plain_state s = true -> all_chars (fun c => negb (Ascii.eqb c ":")) s = true.
Proof.
  unfold plain_state.
  induction s as [|c s IH]; cbn; [reflexivity|].
  intros H. apply andb_prop in H as [Hc Hs].
  apply andb_prop in Hc as [_ Hc]. now rewrite Hc, IH.
Qed.

Lemma uri_elem_chars (t : string * string) :
  plain_state (fst t) = true -> plain_state (snd t) = true ->
  all_chars elem_char (uri t) = true.
Proof.
  intros Ho Hn. unfold uri. rewrite !all_chars_app.
  now rewrite (state_char_elem _ Ho), (state_char_elem _ Hn).
Qed.

Lemma lower_app (a b : string) : lower (a ++ b) = lower a ++ lower b.
Proof.
  induction a as [|c a IH]; cbn; [reflexivity | now rewrite IH].
Qed.

(** An encoded transition holds a colon, so it never reads as NULL. *)
Lemma uri_not_null (t : string * string) :
  String.eqb (lower (uri t)) "null" = false.
Proof.
  apply String.eqb_neq. intros E.
  assert (H : all_chars (fun c => negb (Ascii.eqb c ":")) (lower (uri t)) = true)
    by (rewrite E; reflexivity).
  unfold uri in H. rewrite !lower_app, !all_chars_app in H.
  cbn in H. rewrite andb_false_r in H. discriminate.
Qed.

Lemma items_bare_char (c : ascii) (taken : string) (acc : list (option string)) (r : string) :
  elem_char c = true ->
  items (Bare taken EmptyString false) acc (String c r)
  = items (Bare (snoc taken c) EmptyString false) acc r.
Proof.
  intros H. apply elem_char_spec in H as (_ & H1 & H2 & H3 & H4 & H5 & H6).
  cbn [items]. rewrite H1, H2, H3, H4, H5, H6, append_nil_r. reflexivity.
Qed.

Lemma items_bare_run (e taken : string) (acc : list (option string)) (r : string) :
  all_chars elem_char e = true ->
  items (Bare taken EmptyString false) acc (e ++ r)
  = items (Bare (taken ++ e) EmptyString false) acc r.
Proof.
  revert taken. induction e as [|c e IH]; intros taken H.
  - cbn. now rewrite append_nil_r.
  - cbn in H. apply andb_prop in H as [Hc He].
    cbn [append]. rewrite (items_bare_char _ _ _ _ Hc), (IH _ He).
    unfold snoc. rewrite append_assoc. reflexivity.
Qed.

Lemma items_leading_run (e : string) (acc : list (option string)) (r : string) :
  e <> EmptyString ->
  all_chars elem_char e = true ->
  items Leading acc (e ++ r) = items (Bare e EmptyString false) acc r.
Proof.
  destruct e as [|c e]; [congruence|]. intros _ H.
  cbn in H. apply andb_prop in H as [Hc He].
  pose proof (elem_char_spec _ Hc) as (_ & H1 & H2 & H3 & H4 & H5 & H6).
  cbn [append items]. rewrite H1, H2, H3, H4, H5, H6.
  now rewrite (items_bare_run _ _ _ _ He).
Qed.

Lemma uri_nonempty (t : string * string) : uri t <> EmptyString.
Proof.
  unfold uri. destruct (fst t); discriminate.
Qed.

(** The elements of a non-empty list of plain transitions, read up to the
    closing brace. *)
Lemma items_uris (t : string * string) (ts : list (string * string))
    (acc : list (option string)) :
  plain_transitions (t :: ts) = true ->
  items Leading acc (join "," (map uri (t :: ts)) ++ "}")
  = Some (acc ++ map (fun x => Some (uri x)) (t :: ts))%list.
Proof.
  revert t acc. induction ts as [|t' ts IH]; intros t acc H.
  - cbn in H. rewrite andb_true_r in H.
    destruct t as [o n]. apply andb_prop in H as [Ho Hn].
    cbn [map join String.concat].
    rewrite items_leading_run
      by (apply uri_nonempty || (apply uri_elem_chars; assumption)).
    cbn [items finish negb andb]. rewrite uri_not_null. reflexivity.
  - cbn [plain_transitions forallb] in H. apply andb_prop in H as [Ht H].
    destruct t as [o n]. apply andb_prop in Ht as [Ho Hn].
    change (join "," (map uri ((o, n) :: t' :: ts)))
      with (uri (o, n) ++ "," ++ join "," (map uri (t' :: ts))).
    rewrite !append_assoc.
    rewrite items_leading_run
      by (apply uri_nonempty || (apply uri_elem_chars; assumption)).
    cbn [append items finish negb andb]. rewrite uri_not_null.
    cbn [Ascii.eqb Bool.eqb]. rewrite (IH t' _ H).
    now rewrite <- app_assoc.
Qed.

Lemma transition_uris_uri (ts : list (string * string)) :
  FSM.transition_uris ts = "{" ++ join "," (map uri ts) ++ "}".
Proof.
  unfold FSM.transition_uris. do 3 f_equal.
  apply map_ext. now intros [o n].
Qed.

Lemma join_uris_head (t : string * string) (ts : list (string * string)) :
  plain_state (fst t) = true ->
  exists c r, join "," (map uri (t :: ts)) ++ "}" = String c r
              /\ is_space c = false /\ Ascii.eqb c "}" = false.
Proof.
  intros Ho.
  assert (Hrest : exists rest, join "," (map uri (t :: ts)) ++ "}" = uri t ++ rest).
  { destruct ts as [|t' ts].
    - now exists "}".
    - exists ("," ++ join "," (map uri (t' :: ts)) ++ "}").
      change (join "," (map uri (t :: t' :: ts)))
        with (uri t ++ "," ++ join "," (map uri (t' :: ts))).
      now rewrite !append_assoc. }
  destruct Hrest as [rest ->]. unfold uri.
  destruct (fst t) as [|c o].
  - cbn [append]. now eexists _, _.
  - unfold plain_state in Ho. cbn in Ho. apply andb_prop in Ho as [Hc _].
    apply andb_prop in Hc as [Hc _].
    apply elem_char_spec in Hc as (_ & _ & _ & H3 & _ & _ & H6).
    cbn [append]. now eexists _, _.
Qed.

Lemma array_in_transition_uris (ts : list (string * string)) :
  plain_transitions ts = true ->
  array_in (FSM.transition_uris ts) = Some (map (fun x => Some (uri x)) ts).
Proof.
  intros H. rewrite transition_uris_uri.
  destruct ts as [|t ts]; [reflexivity|].
  assert (Ho : plain_state (fst t) = true).
  { cbn in H. destruct t as [o n]. apply andb_prop in H as [H _].
    now apply andb_prop in H as [H _]. }
  destruct (join_uris_head t ts Ho) as (c & r & E & Hs & Hb).
  unfold array_in. cbn [append skip_spaces is_space].
  change (is_space "{") with false. cbn iota.
  change (Ascii.eqb "{" "{") with true. cbn iota.
  rewrite E at 1. cbn [skip_spaces]. rewrite Hs, Hb.
  now rewrite items_uris.
Qed.

(** ** The FSM encoding on plain states *)

Lemma uri_inj (o n o' n' : string) :
  all_chars (fun c => negb (Ascii.eqb c ":")) o = true ->
  all_chars (fun c => negb (Ascii.eqb c ":")) n = true ->
  o ++ ":" ++ n = o' ++ ":" ++ n' -> o = o' /\ n = n'.
Proof.
  revert o'. induction o as [|c o IH]; intros o' Ho Hn E.
  - destruct o' as [|c' o'].
    + cbn in E. now inversion E.
    + cbn in E. inversion E as [[Hc Hr]]. subst n.
      rewrite all_chars_app in Hn. cbn in Hn.
      rewrite andb_false_r in Hn. discriminate.
  - cbn in Ho. apply andb_prop in Ho as [Hc Ho].
    destruct o' as [|c' o'].
    + cbn in E. inversion E as [[Hc' Hr]]. subst c. discriminate.
    + cbn in E. inversion E as [[Hc' Hr]]. subst c'.
      destruct (IH o' Ho Hn Hr) as [-> ->]. now split.
Qed.

Lemma uri_eqb (t : string * string) (o n : string) :
  plain_state (fst t) = true -> plain_state (snd t) = true ->
  String.eqb (uri t) (o ++ ":" ++ n)
  = andb (String.eqb (fst t) o) (String.eqb (snd t) n).
Proof.
  destruct t as [a b]. unfold uri. cbn [fst snd]. intros Ho Hn.
  destruct (String.eqb_spec (a ++ ":" ++ b) (o ++ ":" ++ n)) as [E|E].
  - apply uri_inj in E; try now apply state_char_colon_free.
    destruct E as [-> ->]. now rewrite !String.eqb_refl.
  - symmetry. apply andb_false_iff.
    destruct (String.eqb_spec a o) as [->|]; [|now left].
    destruct (String.eqb_spec b n) as [->|]; [|now right].
    now destruct E.
Qed.

Lemma existsb_uris (ts : list (string * string)) (o n : string) :
  plain_transitions ts = true ->
  existsb (elem_eqb (o ++ ":" ++ n)) (map (fun x => Some (uri x)) ts) = declared ts o n.
Proof.
  induction ts as [|[o' n'] ts IH]; intros H.
  - reflexivity.
  - cbn in H. apply andb_prop in H as [Ht H]. apply andb_prop in Ht as [Ho Hn].
    cbn [map existsb declared elem_eqb].
    rewrite (uri_eqb (o', n') o n Ho Hn), (IH H). reflexivity.
Qed.

Lemma existsb_null_uris (ts : list (string * string)) :
  existsb is_null (map (fun x => Some (uri x)) ts) = false.
Proof.
  induction ts as [|t ts IH]; [reflexivity | exact IH].
Qed.

Lemma quote_free_join_uris (ts : list (string * string)) :
  plain_transitions ts = true -> quote_free (join "," (map uri ts)) = true.
Proof.
  unfold quote_free.
  induction ts as [|[o n] ts IH]; intros H.
  - reflexivity.
  - cbn in H. apply andb_prop in H as [Ht H]. apply andb_prop in Ht as [Ho Hn].
    assert (Hu : all_chars (fun c => negb (Ascii.eqb c "'")) (uri (o, n)) = true).
    { pose proof (uri_elem_chars (o, n) Ho Hn) as He.
      induction (uri (o, n)) as [|c u IHu]; [reflexivity|].
      cbn in He |- *. apply andb_prop in He as [Hc He].
      apply elem_char_spec in Hc as (Hq & _). now rewrite Hq, IHu. }
    destruct ts as [|t' ts].
    + exact Hu.
    + change (join "," (map uri ((o, n) :: t' :: ts)))
        with (uri (o, n) ++ "," ++ join "," (map uri (t' :: ts))).
      rewrite !all_chars_app, Hu, (IH H). reflexivity.
Qed.

Lemma string_constant_transition_uris (ts : list (string * string)) :
  plain_transitions ts = true ->
  string_constant (FSM.transition_uris ts) = Some (FSM.transition_uris ts).
Proof.
  intros H. apply string_constant_quote_free.
  rewrite transition_uris_uri. unfold quote_free.
  rewrite !all_chars_app. fold (quote_free (join "," (map uri ts))).
  now rewrite quote_free_join_uris.
Qed.

(** ** Running the FSM body *)

Section FSM_runs.
Variables (f : frame) (qcol field : string) (ts : list (string * string)).

(** The membership test of the body, on plain transitions. *)
Lemma FSM_select_plain (st : state) (o n : string) :
  plain_transitions ts = true ->
  old f qcol = VText o -> new f qcol = VText n ->
  eval f st (EqAny (Concat [Col OLD qcol; TextLit ":"; Col NEW qcol])
                   (FSM.transition_uris ts))
  = Some (VBool (declared ts o n)).
Proof.
  intros Hp Ho Hn. cbn [eval map sequence option_map string_constant Ascii.eqb Bool.eqb].
  rewrite Ho, Hn. cbn [sequence option_map map text_of String.concat append].
  rewrite (string_constant_transition_uris _ Hp), (array_in_transition_uris _ Hp).
  pose proof (existsb_uris ts o n Hp) as E. cbn [append] in E.
  unfold eq_any. rewrite E, existsb_null_uris.
  now destruct (declared ts o n).
Qed.

End FSM_runs.


Section FSM_check_runs.
Variables (f : frame) (qcol field : string).




End FSM_check_runs.





(** ** C2: an unchanged value *)



(** C2, at an input where the code departs from it.  The states are
    spliced into the array literal as they stand, so a state with a single
    quote ends the string constant and the rest of the state is read as
    statements.  For the state below the text [get_func] renders is the
    concrete syntax of a program of four statements, the second of which
    raises the transition exception before the guard is reached: run on a
    row pair whose old and new value are both [draft], it raises "Invalid
    transition ... from draft to draft". *)
Theorem FSM_quote_in_state_raises_on_unchanged_value :
  let q := @quote sample.api "status" in
  let test := Concat [Col OLD q; TextLit ":"; Col NEW q] in
  let raise_ :=
    RaiseException (FSM_format "status") [Col OLD q; Col NEW q; TgTableName] in
  let state :=
    "a}'::text[])" ++ nl ++ spaces 16 ++ "INTO _is_valid_transition;" ++ nl ++ nl
    ++ print_stmt 12 raise_
    ++ spaces 12 ++ "SELECT " ++ print_expr test ++ " = ANY('{b" in
  let program :=
    [ SelectInto (EqAny test "{a}") "_is_valid_transition";
      raise_;
      SelectInto (EqAny test "{b:c}") "_is_valid_transition";
      FSM_check q "status" ] in
  @FSM.get_func sample.api (sample.fsm [(state, "c")]) sample.model
  = Ok (print_body program)
  /\ run (sample.move "draft" "draft") sample.no_tables program
     = Exception (FSM_message "status" "draft" "draft" "orders").
Proof.
  cbv zeta. split; vm_compute; reflexivity.
Qed.

(** ** C1: the membership test on states that contain the separators *)

(** C1, at the inputs where the code departs from it.  With the single
    declared transition from [a:b] to [c], the move from [a] to [b:c] is
    not declared and differs in old and new value, yet the rendered body
    returns NEW.  With the single declared transition from [a,b] to [c],
    that very move is declared, yet the rendered body raises the
    transition exception. *)
Theorem FSM_separator_in_state_breaks_membership :
  let q := @quote sample.api "status" in
  (let ts := [("a:b", "c")] in
   declared ts "a" "b:c" = false
   /\ "a" <> "b:c"
   /\ @FSM.get_func sample.api (sample.fsm ts) sample.model
      = Ok (print_body (FSM_body q "status" ts))
   /\ run (sample.move "a" "b:c") sample.no_tables (FSM_body q "status" ts)
      = Result sample.no_tables (Some NEW))
  /\
  (let ts := [("a,b", "c")] in
   declared ts "a,b" "c" = true
   /\ @FSM.get_func sample.api (sample.fsm ts) sample.model
      = Ok (print_body (FSM_body q "status" ts))
   /\ run (sample.move "a,b" "c") sample.no_tables (FSM_body q "status" ts)
      = Exception (FSM_message "status" "a,b" "c" "orders")).
Proof.
  cbv zeta. repeat split; try reflexivity.
  discriminate.
Qed.

(** ** C9: the encoding of transition lists is not injective *)


(** ** C4: Protect *)






(** ** C5: FSM construction *)

(** C5.  Constructing an FSM whose field (argument or class attribute) is
    missing or empty, or whose transition list is missing or empty, raises
    ValueError in [__init__] itself, before and whatever the base
    constructor does; for the class FSM, which sets neither attribute,
    that is every call that leaves out a field or a non-empty transition
    list.  A construction that returns has a non-empty field and a
    non-empty transition list. *)
Theorem FSM_init_requires_field_and_transitions `{A : api}
    (cls : FSM.Class_) (name condition field : option string)
    (transitions : option (list (string * string))) :
  (truthy_str (or_str field (FSM.cls_field cls)) = false
   \/ truthy_list (or_list transitions (FSM.cls_transitions cls)) = false ->
   exists msg, FSM.__init__ cls name condition field transitions = Raise (ValueError msg))
  /\ (truthy_str field = false \/ truthy_list transitions = false ->
      exists msg, FSM.__init__ FSM.FSM name condition field transitions
                  = Raise (ValueError msg))
  /\ (forall self, FSM.__init__ cls name condition field transitions = Ok self ->
      truthy_str (FSM.field self) = true /\ truthy_list (FSM.transitions self) = true).
Proof.
  assert (Hgen : forall c,
            truthy_str (or_str field (FSM.cls_field c)) = false
            \/ truthy_list (or_list transitions (FSM.cls_transitions c)) = false ->
            exists msg, FSM.__init__ c name condition field transitions
                        = Raise (ValueError msg)).
  { intros c H. unfold FSM.__init__.
    destruct (truthy_str (or_str field (FSM.cls_field c))) eqn:Hf; cbn [negb].
    - destruct H as [H|H]; [discriminate|]. rewrite H. cbn [negb]. now eexists.
    - now eexists. }
  split; [apply Hgen|]. split.
  - intros H. apply Hgen. unfold or_str, or_list. cbn [FSM.cls_field FSM.cls_transitions FSM.FSM].
    destruct H as [H|H]; [left | right]; now rewrite H.
  - intros self. unfold FSM.__init__.
    destruct (truthy_str (or_str field (FSM.cls_field cls))) eqn:Hf; cbn [negb];
      [|discriminate].
    destruct (truthy_list (or_list transitions (FSM.cls_transitions cls))) eqn:Ht;
      cbn [negb]; [|discriminate].
    destruct (Trigger_init _ _) as [b|e]; cbn [py.bind]; [|discriminate].
    intros [= <-]. now split.
Qed.

Lemma FSM_init_requires_field_and_transitions_witness :
  (exists msg, @FSM.__init__ sample.api FSM.FSM None None None
                 (Some [("draft", "published")]) = Raise (ValueError msg))
  /\ (exists msg, @FSM.__init__ sample.api FSM.FSM None None (Some "status") (Some [])
                  = Raise (ValueError msg))
  /\ (forall self,
        @FSM.__init__ sample.api FSM.FSM None None (Some "status")
          (Some [("draft", "published")]) = Ok self ->
        truthy_str (FSM.field self) = true /\ truthy_list (FSM.transitions self) = true).
Proof.
  split; [|split].
  - exact (proj1 (proj2 (@FSM_init_requires_field_and_transitions sample.api FSM.FSM
                           None None None (Some [("draft", "published")])))
                 (or_introl eq_refl)).
  - exact (proj1 (proj2 (@FSM_init_requires_field_and_transitions sample.api FSM.FSM
                           None None (Some "status") (Some [])))
                 (or_intror eq_refl)).
  - exact (proj2 (proj2 (@FSM_init_requires_field_and_transitions sample.api FSM.FSM
                           None None (Some "status") (Some [("draft", "published")])))).
Defined.

(** The construction of the witness does return. *)
Example FSM_init_returns :
  @FSM.__init__ sample.api FSM.FSM (Some "guard") None (Some "status")
    (Some [("draft", "published")])
  = Ok {| FSM.field := Some "status";
          FSM.transitions := Some [("draft", "published")];
          FSM.base := {| name := Some "guard"; when := Some Before;
                         operation := Some Update; condition := None |} |}.
Proof. reflexivity. Qed.

(** ** C6: UpdateSearchVector cannot be ignored *)

(** C6.  For every UpdateSearchVector trigger and every model, [ignore]
    raises RuntimeError naming the trigger's class; it never returns. *)
Theorem UpdateSearchVector_ignore_always_raises
    (self : UpdateSearchVector.t) (model : Model) :
  UpdateSearchVector.ignore self model
  = Raise (RuntimeError
             ("Cannot ignore "
              ++ UpdateSearchVector.__name__ (UpdateSearchVector.__class__ self)
              ++ " triggers"))
  /\ (forall u, UpdateSearchVector.ignore self model <> Ok u).
Proof.
  split; [reflexivity | intros u; discriminate].
Qed.

(** ** C7: the operation scope of UpdateSearchVector *)




(** The construction of the witness does return. *)
Example UpdateSearchVector_init_returns :
  @UpdateSearchVector.__init__ sample.api UpdateSearchVector.UpdateSearchVector
    (Some "search") (Some "body_vector") (Some ["title"; "body"]) None
  = Ok {| UpdateSearchVector.__class__ := UpdateSearchVector.UpdateSearchVector;
          UpdateSearchVector.vector_field := Some "body_vector";
          UpdateSearchVector.document_fields := Some ["title"; "body"];
          UpdateSearchVector.config_name := Some "pg_catalog.english";
          UpdateSearchVector.base :=
            {| name := Some "search"; when := Some Before;
               operation := Some (Or Insert (UpdateOf ["title"; "body"]));
               condition := None |} |}.
Proof. reflexivity. Qed.

(** A subclass that sets [document_fields] at class level and is built
    without the argument passes the checks and then fails to unpack
    [None]: no trigger is built from a class-level list alone. *)
Example UpdateSearchVector_class_level_fields :
  @UpdateSearchVector.__init__ sample.api
    {| UpdateSearchVector.__name__ := "TitleSearch";
       UpdateSearchVector.cls_vector_field := Some "body_vector";
       UpdateSearchVector.cls_document_fields := Some ["title"];
       UpdateSearchVector.cls_config_name := Some "pg_catalog.english" |}
    None None None None
  = Raise (TypeError "argument after * must be an iterable, not NoneType").
Proof. reflexivity. Qed.

(** ** C8: UpdateSearchVector delegates to the built-in function *)

Lemma document_cols_lookup (model : Model) (fs cols : list string) :
  Forall2 (fun f c => lookup_field f (fields model) = Some c) fs cols ->
  UpdateSearchVector.document_cols model fs = Ok cols.
Proof.
  induction 1 as [|f c fs cols Hf _ IH]; [reflexivity|].
  cbn [UpdateSearchVector.document_cols]. unfold get_field_column.
  now rewrite Hf, IH.
Qed.

(** C8.  For every UpdateSearchVector trigger [render_func] is the empty
    string, and on a model that has the document fields and the vector
    field [render_trigger], whatever [function] it is called with, calls
    the base [render_trigger] with the override
    [tsvector_update_trigger(<quoted vector column>, <quoted config_name>,
    <quoted document columns>)], the columns being those the model gives
    the fields.  With the base of the spec the statement that comes back
    ends in EXECUTE FUNCTION followed by that override as it stands, and
    is the same whatever the generated function would be called. *)
Theorem UpdateSearchVector_delegates `{A : api}
    (self : UpdateSearchVector.t) (model : Model) (function : option string)
    (fs cols : list string) (v vector_col config : string) :
  UpdateSearchVector.document_fields self = Some fs ->
  Forall2 (fun f c => lookup_field f (fields model) = Some c) fs cols ->
  UpdateSearchVector.vector_field self = Some v ->
  lookup_field v (fields model) = Some vector_col ->
  UpdateSearchVector.config_name self = Some config ->
  UpdateSearchVector.render_func self model = EmptyString
  /\ UpdateSearchVector.render_trigger self model function
     = Ok (Trigger_render_trigger (UpdateSearchVector.base self) model
             (Some ("tsvector_update_trigger(" ++ quote vector_col ++ ", "
                    ++ quote config ++ ", " ++ join ", " (map quote cols) ++ ")")))
  /\ (forall pgid,
        @UpdateSearchVector.render_trigger (reference.api pgid) self model function
        = Ok (reference.trigger_clause (UpdateSearchVector.base self) model
              ++ "EXECUTE FUNCTION "
              ++ "tsvector_update_trigger(" ++ reference.quote vector_col ++ ", "
              ++ reference.quote config ++ ", "
              ++ join ", " (map reference.quote cols) ++ ")")).
Proof.
  intros Hfs Hcols Hv Hl Hc.
  assert (Hrender : forall B : api,
            @UpdateSearchVector.render_trigger B self model function
            = Ok (@Trigger_render_trigger B (UpdateSearchVector.base self) model
                    (Some ("tsvector_update_trigger(" ++ @quote B vector_col ++ ", "
                           ++ @quote B config ++ ", "
                           ++ join ", " (map (@quote B) cols) ++ ")")))).
  { intros B. unfold UpdateSearchVector.render_trigger.
    rewrite Hfs, (document_cols_lookup _ _ _ Hcols). cbn [py.bind].
    rewrite Hv. unfold get_field_column. rewrite Hl. cbn [py.bind].
    rewrite Hc. reflexivity. }
  split; [reflexivity|]. split; [apply Hrender|].
  intros pgid. rewrite Hrender. reflexivity.
Qed.

Lemma UpdateSearchVector_delegates_witness :
  let self :=
    {| UpdateSearchVector.__class__ := UpdateSearchVector.UpdateSearchVector;
       UpdateSearchVector.vector_field := Some "body_vector";
       UpdateSearchVector.document_fields := Some ["title"; "body"];
       UpdateSearchVector.config_name := Some "pg_catalog.english";
       UpdateSearchVector.base := sample.trigger (Or Insert (UpdateOf ["title"; "body"])) |} in
  @UpdateSearchVector.render_trigger sample.api self sample.renamed None
  = Ok ("CREATE TRIGGER guard BEFORE INSERT OR UPDATE OF "
        ++ dq ++ "title" ++ dq ++ ", " ++ dq ++ "body" ++ dq
        ++ " ON " ++ dq ++ "articles" ++ dq
        ++ " FOR EACH ROW EXECUTE FUNCTION tsvector_update_trigger("
        ++ dq ++ "search_tsv" ++ dq ++ ", " ++ dq ++ "pg_catalog.english" ++ dq ++ ", "
        ++ dq ++ "title_text" ++ dq ++ ", " ++ dq ++ "body_text" ++ dq ++ ")").
Proof.
  intros self.
  assert (Hcols : Forall2 (fun f c => lookup_field f (fields sample.renamed) = Some c)
                    ["title"; "body"] ["title_text"; "body_text"]).
  { constructor; [reflexivity|]. constructor; [reflexivity|]. constructor. }
  exact (proj2 (proj2 (@UpdateSearchVector_delegates sample.api self sample.renamed None
                         ["title"; "body"] ["title_text"; "body_text"] "body_vector"
                         "search_tsv" "pg_catalog.english" eq_refl Hcols
                         eq_refl eq_refl eq_refl))
               reference.pgid).
Defined.

(** ** C10: the sentinel of SoftDelete *)

(** C10.  [SoftDelete.__init__] keeps whatever [value] it is given, [None]
    and [False] included, which then render as NULL and False; only a call
    that leaves [value] out takes the class attribute, which is [False] for
    SoftDelete itself.  The [field] argument has no sentinel: a falsy
    [field] falls back to the class attribute, and the constructor then
    builds the trigger on the class-level field with the value kept as
    above; it raises only when the argument and the class attribute are
    both falsy. *)
Theorem SoftDelete_value_sentinel `{A : api}
    (cls : SoftDelete.Class_) (name condition field : option string) :
  (forall v self,
     SoftDelete.__init__ cls name condition field (given v) = Ok self ->
     SoftDelete.value_ self = v)
  /\ (forall self,
        SoftDelete.__init__ cls name condition field _unset = Ok self ->
        SoftDelete.value_ self = SoftDelete.cls_value cls)
  /\ SoftDelete.cls_value SoftDelete.SoftDelete = Bool false
  /\ (forall self,
        (SoftDelete.value_ self = None_ -> SoftDelete._render_value self = "NULL")
        /\ (SoftDelete.value_ self = Bool false -> SoftDelete._render_value self = "False"))
  /\ (forall value self,
        truthy_str field = false ->
        SoftDelete.__init__ cls name condition field value = Ok self ->
        SoftDelete.field self = SoftDelete.cls_field cls)
  /\ (forall value f b,
        Trigger_init SoftDelete.class_trigger
          {| kw_name := name; kw_when := None; kw_operation := None;
             kw_condition := condition |} = Ok b ->
        truthy_str (Some f) = true ->
        SoftDelete.__init__ cls name condition (Some f) value
        = Ok {| SoftDelete.field := Some f;
                SoftDelete.value_ :=
                  match value with given v => v | _unset => SoftDelete.cls_value cls end;
                SoftDelete.base := b |})
  /\ (forall value b,
        Trigger_init SoftDelete.class_trigger
          {| kw_name := name; kw_when := None; kw_operation := None;
             kw_condition := condition |} = Ok b ->
        truthy_str field = false ->
        truthy_str (SoftDelete.cls_field cls) = true ->
        SoftDelete.__init__ cls name condition field value
        = Ok {| SoftDelete.field := SoftDelete.cls_field cls;
                SoftDelete.value_ :=
                  match value with given v => v | _unset => SoftDelete.cls_value cls end;
                SoftDelete.base := b |})
  /\ (forall value,
        truthy_str field = false ->
        truthy_str (SoftDelete.cls_field cls) = false ->
        SoftDelete.__init__ cls name condition field value
        = Raise (ValueError ("Must provide " ++ dq ++ "field" ++ dq
                             ++ " for soft delete"))).
Proof.
  assert (Hinit : forall value self,
            SoftDelete.__init__ cls name condition field value = Ok self ->
            SoftDelete.field self = or_str field (SoftDelete.cls_field cls)
            /\ SoftDelete.value_ self
               = match value with given v => v | _unset => SoftDelete.cls_value cls end).
  { intros value self. unfold SoftDelete.__init__.
    destruct (truthy_str (or_str field (SoftDelete.cls_field cls))); cbn [negb];
      [|discriminate].
    destruct (Trigger_init _ _) as [b|e]; cbn [py.bind]; [|discriminate].
    intros [= <-]. now split. }
  split; [|split; [|split; [|split; [|split; [|split; [|split]]]]]].
  - intros v self H. now apply Hinit in H as [_ H].
  - intros self H. now apply Hinit in H as [_ H].
  - reflexivity.
  - intros self. unfold SoftDelete._render_value. split; intros ->; reflexivity.
  - intros value self Hfalsy H. apply Hinit in H as [H _]. rewrite H.
    unfold or_str. now rewrite Hfalsy.
  - intros value f b Hb Hf. unfold SoftDelete.__init__.
    unfold or_str at 1. rewrite Hf. cbn [negb]. unfold or_str. rewrite Hf, Hb.
    reflexivity.
  - intros value b Hb Hfalsy Hcls. unfold SoftDelete.__init__, or_str.
    rewrite Hfalsy, Hcls, Hb. reflexivity.
  - intros value Hfalsy Hcls. unfold SoftDelete.__init__, or_str.
    rewrite Hfalsy, Hcls. reflexivity.
Qed.

Lemma SoftDelete_value_sentinel_witness :
  let cls := {| SoftDelete.cls_field := Some "is_active"; SoftDelete.cls_value := Int 7 |} in
  let b := {| name := None; when := Some Before;
              operation := Some Delete; condition := None |} in
  @SoftDelete.__init__ sample.api cls None None (Some "deleted_at") (given None_)
  = Ok {| SoftDelete.field := Some "deleted_at"; SoftDelete.value_ := None_;
          SoftDelete.base := b |}
  /\ @SoftDelete.__init__ sample.api cls None None (Some EmptyString) (given (Bool false))
     = Ok {| SoftDelete.field := Some "is_active"; SoftDelete.value_ := Bool false;
             SoftDelete.base := b |}
  /\ @SoftDelete.__init__ sample.api cls None None None _unset
     = Ok {| SoftDelete.field := Some "is_active"; SoftDelete.value_ := Int 7;
             SoftDelete.base := b |}.
Proof.
  intros cls b.
  pose proof (@SoftDelete_value_sentinel sample.api cls None None (Some "deleted_at"))
    as (_ & _ & _ & _ & _ & Hok & _).
  pose proof (@SoftDelete_value_sentinel sample.api cls None None (Some EmptyString))
    as (_ & _ & _ & _ & _ & _ & Hempty & _).
  pose proof (@SoftDelete_value_sentinel sample.api cls None None None)
    as (_ & _ & _ & _ & _ & _ & Hnone & _).
  split; [|split].
  - exact (Hok (given None_) "deleted_at" b eq_refl eq_refl).
  - exact (Hempty (given (Bool false)) b eq_refl eq_refl eq_refl).
  - exact (Hnone _unset b eq_refl eq_refl eq_refl).
Defined.

(** ** C3: SoftDelete *)

Lemma length_snoc (s : string) (c : ascii) :
  String.length (s ++ String c EmptyString) = S (String.length s).
Proof.
  induction s as [|x s IH]; cbn; [reflexivity | now rewrite IH].
Qed.

Lemma substring_last (s : string) (c : ascii) :
  substring (String.length s) 1 (s ++ String c EmptyString) = String c EmptyString.
Proof.
  induction s as [|x s IH]; cbn; [reflexivity | exact IH].
Qed.

Lemma substring_init (s t : string) :
  substring 0 (String.length s) (s ++ t) = s.
Proof.
  induction s as [|x s IH]; cbn.
  - now destruct t.
  - now rewrite IH.
Qed.

Lemma unquote_quoted (s : string) :
  quote_free s = true -> unquote ("'" ++ s ++ "'") = Some s.
Proof.
  intros H. unfold unquote. cbn [append].
  change (Ascii.eqb "'" "'") with true. rewrite length_snoc.
  cbn [Nat.ltb Nat.leb andb Nat.sub]. rewrite Nat.sub_0_r, substring_last.
  cbn [String.eqb Ascii.eqb Bool.eqb]. rewrite substring_init.
  now apply string_constant_quote_free.
Qed.

Lemma int_of_string_quoted (r : string) :
  NilZero.int_of_string (String "'" r) = None.
Proof.
  unfold NilZero.int_of_string. change (Ascii.eqb "'" "-") with false. cbn iota.
  unfold NilZero.uint_of_string. cbn [NilEmpty.uint_of_string].
  now destruct (NilEmpty.uint_of_string r).
Qed.

Lemma int_of_string_to_int (z : Z) :
  NilZero.int_of_string (NilZero.string_of_int (Z.to_int z)) = Some (Z.to_int z).
Proof.
  apply NilZero.isi; destruct z as [|p|p]; cbn; try discriminate;
    intros [= E]; now apply (DecimalPos.Unsigned.to_uint_nonnil p).
Qed.

(** X11.  The constant SoftDelete renders for [None], a boolean, an
    integer, or a string without a single quote reads back as that
    value. *)
Theorem SoftDelete_constant_reads_back (self : SoftDelete.t) :
  match SoftDelete.value_ self with
  | Str s => quote_free s = true
  | _ => True
  end ->
  literal_value (SoftDelete._render_value self) = Some (denote (SoftDelete.value_ self)).
Proof.
  unfold SoftDelete._render_value. destruct (SoftDelete.value_ self) as [|s|[|]|z]; intros H.
  - reflexivity.
  - unfold literal_value. cbn [append]. rewrite int_of_string_quoted.
    change (String "'" (s ++ "'")) with ("'" ++ s ++ "'").
    now rewrite (unquote_quoted _ H).
  - reflexivity.
  - reflexivity.
  - unfold literal_value, py.str. rewrite int_of_string_to_int.
    cbn [denote]. now rewrite DecimalZ.of_to.
Qed.

Lemma SoftDelete_constant_reads_back_witness :
  literal_value (SoftDelete._render_value (sample.soft_delete (Str "gone")))
  = Some (VText "gone")
  /\ literal_value (SoftDelete._render_value (sample.soft_delete (Int (-12))))
     = Some (VInt (-12))
  /\ literal_value (SoftDelete._render_value (sample.soft_delete None_)) = Some VNull.
Proof.
  split; [|split].
  - exact (SoftDelete_constant_reads_back (sample.soft_delete (Str "gone")) eq_refl).
  - exact (SoftDelete_constant_reads_back (sample.soft_delete (Int (-12))) I).
  - exact (SoftDelete_constant_reads_back (sample.soft_delete None_) I).
Defined.

(** C3, at the input where the code departs from it.  For the string
    value [it's] the body is the UPDATE the claim describes, but the
    constant is the value between single quotes as it stands: the quote
    inside ends the constant early, the engine does not read the text as a
    constant, and the function does not run. *)
Theorem SoftDelete_quote_in_value_is_not_escaped :
  let self := sample.soft_delete (Str "it's") in
  @SoftDelete.get_func sample.api self sample.model
  = Ok (print_body (@SoftDelete_body sample.api self sample.model "is_active"))
  /\ SoftDelete._render_value self = "'it's'"
  /\ literal_value (SoftDelete._render_value self) = None
  /\ (forall f tables,
        run f tables (@SoftDelete_body sample.api self sample.model "is_active")
        = EngineError).
Proof.
  cbv zeta. repeat split; reflexivity.
Qed.


(** * Further properties of the rendered bodies and the constructors *)

(** ** The FSM body: what it reads, writes and returns *)

Lemma run_outcome_of (f : frame) (tbls : string -> list row) (body : list stmt) :
  run f tbls body
  = outcome_of (exec_block f body {| vars := fun _ => VNull; tables := tbls |}).
Proof.
  unfold run, outcome_of. now destruct (exec_block f body _).
Qed.







(** ** The FSM body on plain transition lists *)

Lemma declared_In (ts : list (string * string)) (o n : string) :
  declared ts o n = true <-> In (o, n) ts.
Proof.
  unfold declared. rewrite existsb_exists. split.
  - intros ([o' n'] & Hin & H). apply andb_prop in H as [Ho Hn].
    apply String.eqb_eq in Ho, Hn. now subst.
  - intros Hin. exists (o, n). split; [exact Hin|].
    now rewrite !String.eqb_refl.
Qed.

Lemma declared_same_pairs (ts1 ts2 : list (string * string)) (o n : string) :
  (forall p, In p ts1 <-> In p ts2) -> declared ts1 o n = declared ts2 o n.
Proof.
  intros H. destruct (declared ts1 o n) eqn:E1, (declared ts2 o n) eqn:E2;
    try reflexivity.
  - apply declared_In, H, declared_In in E1. congruence.
  - apply declared_In, H, declared_In in E2. congruence.
Qed.

(** X5.  Only the set of declared pairs matters: two plain transition
    lists with the same pairs, in any order and with any repetitions,
    render bodies that end the same way on every pair of strings. *)
Theorem FSM_order_and_repetition_irrelevant
    (f : frame) (tbls : string -> list row) (qcol field : string)
    (ts1 ts2 : list (string * string)) (o n : string) :
  plain_transitions ts1 = true ->
  plain_transitions ts2 = true ->
  (forall p, In p ts1 <-> In p ts2) ->
  old f qcol = VText o -> new f qcol = VText n ->
  run f tbls (FSM_body qcol field ts1) = run f tbls (FSM_body qcol field ts2).
Proof.
  intros Hp1 Hp2 Hsame Ho Hn. unfold run, FSM_body. cbn [exec_block exec].
  rewrite (FSM_select_plain f qcol ts1 _ o n Hp1 Ho Hn).
  rewrite (FSM_select_plain f qcol ts2 _ o n Hp2 Ho Hn).
  now rewrite (declared_same_pairs ts1 ts2 o n Hsame).
Qed.

Lemma FSM_order_and_repetition_irrelevant_witness :
  let ts1 := [("draft", "published"); ("published", "archived")] in
  let ts2 := [("published", "archived"); ("draft", "published");
              ("published", "archived")] in
  run (sample.move "published" "archived") sample.no_tables
      (FSM_body (@quote sample.api "status") "status" ts1)
  = run (sample.move "published" "archived") sample.no_tables
        (FSM_body (@quote sample.api "status") "status" ts2).
Proof.
  intros ts1 ts2.
  apply (FSM_order_and_repetition_irrelevant (sample.move "published" "archived")
           sample.no_tables (@quote sample.api "status") "status" ts1 ts2
           "published" "archived" eq_refl eq_refl); [|reflexivity|reflexivity].
  intros p. unfold ts1, ts2. cbn [In]. tauto.
Defined.

Lemma append_inv_head (p x y : string) : p ++ x = p ++ y -> x = y.
Proof.
  induction p as [|c p IH]; cbn; [trivial|].
  intros [= H]. now apply IH.
Qed.

(** Text without the character [c] ends where the first [c] stands. *)
Lemma append_sep_inj (c : ascii) (a b r1 r2 : string) :
  all_chars (fun x => negb (Ascii.eqb x c)) a = true ->
  all_chars (fun x => negb (Ascii.eqb x c)) b = true ->
  a ++ String c r1 = b ++ String c r2 -> a = b.
Proof.
  revert b. induction a as [|x a IH]; intros b Ha Hb E.
  - destruct b as [|y b]; [reflexivity|].
    cbn in E, Hb. injection E as <- _.
    now rewrite Ascii.eqb_refl in Hb.
  - cbn in Ha. apply andb_prop in Ha as [Hx Ha].
    destruct b as [|y b].
    + cbn in E. injection E as -> _. now rewrite Ascii.eqb_refl in Hx.
    + cbn in E, Hb. injection E as -> E. apply andb_prop in Hb as [_ Hb].
      f_equal. now apply IH.
Qed.

Lemma map_uri_inj (ts1 ts2 : list (string * string)) :
  plain_transitions ts1 = true ->
  map (fun x => Some (uri x)) ts1 = map (fun x => Some (uri x)) ts2 ->
  ts1 = ts2.
Proof.
  revert ts2. induction ts1 as [|[o n] ts1 IH]; intros [|[o' n'] ts2] Hp E;
    try discriminate; [reflexivity|].
  cbn in Hp. apply andb_prop in Hp as [Ht Hp]. apply andb_prop in Ht as [Ho Hn].
  cbn [map] in E. injection E as Eu E. unfold uri in Eu. cbn [fst snd] in Eu.
  apply uri_inj in Eu as [-> ->]; try now apply state_char_colon_free.
  f_equal. now apply IH.
Qed.

Lemma quote_free_transition_uris (ts : list (string * string)) :
  plain_transitions ts = true -> quote_free (FSM.transition_uris ts) = true.
Proof.
  intros H. rewrite transition_uris_uri. unfold quote_free.
  rewrite !all_chars_app. fold (quote_free (join "," (map uri ts))).
  now rewrite quote_free_join_uris.
Qed.

(** X6.  On plain states the encoding loses nothing: two plain transition
    lists that render the same function body for a field are the same
    list. *)
Theorem FSM_plain_encoding_injective `{A : api}
    (field : option string) (b1 b2 : Trigger) (model : Model) (col : string)
    (ts1 ts2 : list (string * string)) :
  get_field_column model field = Ok col ->
  plain_transitions ts1 = true ->
  plain_transitions ts2 = true ->
  FSM.get_func {| FSM.field := field; FSM.transitions := Some ts1; FSM.base := b1 |} model
  = FSM.get_func {| FSM.field := field; FSM.transitions := Some ts2; FSM.base := b2 |} model ->
  ts1 = ts2.
Proof.
  intros Hcol Hp1 Hp2 E.
  pose proof (quote_free_transition_uris ts1 Hp1) as Hq1.
  pose proof (quote_free_transition_uris ts2 Hp2) as Hq2.
  pose proof (array_in_transition_uris ts1 Hp1) as H1.
  pose proof (array_in_transition_uris ts2 Hp2) as H2.
  unfold FSM.get_func in E.
  cbn [FSM.field FSM.transitions] in E. rewrite Hcol in E. cbn [py.bind] in E.
  remember (FSM.transition_uris ts1) as u1 eqn:E1.
  remember (FSM.transition_uris ts2) as u2 eqn:E2.
  remember (quote col) as q eqn:Eq.
  injection E as E.
  repeat first [apply append_inv_head in E | injection E as E].
  apply (append_sep_inj "'") in E; [|exact Hq1|exact Hq2].
  apply map_uri_inj; [exact Hp1|]. rewrite E in H1. congruence.
Qed.

Lemma FSM_plain_encoding_injective_witness :
  [("draft", "published"); ("published", "archived")]
  = [("draft", "published"); ("published", "archived")].
Proof.
  exact (@FSM_plain_encoding_injective sample.api (Some "status")
           (sample.trigger Update) (sample.trigger Update) sample.model "status"
           [("draft", "published"); ("published", "archived")]
           [("draft", "published"); ("published", "archived")]
           eq_refl eq_refl eq_refl eq_refl).
Defined.

(** ** The FSM body on null values *)




(** ** The Protect body *)



(** ** Constructors and rendering together *)

Lemma get_field_column_cases (model : Model) (name : option string) :
  (exists f col, name = Some f /\ lookup_field f (fields model) = Some col
                 /\ get_field_column model name = Ok col)
  \/ (exists n, get_field_column model name = Raise (FieldDoesNotExist n)).
Proof.
  unfold get_field_column. destruct name as [f|]; [|right; now eexists].
  destruct (lookup_field f (fields model)) as [col|] eqn:E.
  - left. now exists f, col.
  - right. now eexists.
Qed.

(** X12.  [UpdateSearchVector.__init__] checks its three settings in the
    order vector_field, document_fields, config_name and raises ValueError
    for the first that is missing after the fallback to the class
    attribute, before the base constructor runs.  A trigger that is
    returned was given its [document_fields] as an argument, has all three
    settings non-empty and records its class; for the class
    UpdateSearchVector a call without [config_name] gets
    [pg_catalog.english]. *)
Theorem UpdateSearchVector_init_validates `{A : api}
    (cls : UpdateSearchVector.Class_) (name vector_field : option string)
    (document_fields : option (list string)) (config_name : option string) :
  let vf := or_str vector_field (UpdateSearchVector.cls_vector_field cls) in
  let dfs := or_list document_fields (UpdateSearchVector.cls_document_fields cls) in
  let cn := or_str config_name (UpdateSearchVector.cls_config_name cls) in
  (truthy_str vf = false ->
   UpdateSearchVector.__init__ cls name vector_field document_fields config_name
   = Raise (ValueError ("Must provide " ++ dq ++ "vector_field" ++ dq
                        ++ " to update search vector")))
  /\ (truthy_str vf = true -> truthy_list dfs = false ->
      UpdateSearchVector.__init__ cls name vector_field document_fields config_name
      = Raise (ValueError ("Must provide " ++ dq ++ "document_fields" ++ dq
                           ++ " to update search vector")))
  /\ (truthy_str vf = true -> truthy_list dfs = true -> truthy_str cn = false ->
      UpdateSearchVector.__init__ cls name vector_field document_fields config_name
      = Raise (ValueError ("Must provide " ++ dq ++ "config_name" ++ dq
                           ++ " to update search vector")))
  /\ (forall self,
        UpdateSearchVector.__init__ cls name vector_field document_fields config_name
        = Ok self ->
        (exists cols, document_fields = Some cols)
        /\ UpdateSearchVector.vector_field self = vf /\ truthy_str vf = true
        /\ UpdateSearchVector.document_fields self = dfs /\ truthy_list dfs = true
        /\ UpdateSearchVector.config_name self = cn /\ truthy_str cn = true
        /\ UpdateSearchVector.__class__ self = cls)
  /\ (cls = UpdateSearchVector.UpdateSearchVector -> config_name = None ->
      cn = Some "pg_catalog.english").
Proof.
  intros vf dfs cn. unfold UpdateSearchVector.__init__. fold vf dfs cn.
  split; [|split; [|split; [|split]]].
  - now intros ->.
  - now intros -> ->.
  - now intros -> -> ->.
  - intros self.
    destruct (truthy_str vf) eqn:Hvf; cbn [negb]; [|discriminate].
    destruct (truthy_list dfs) eqn:Hdfs; cbn [negb]; [|discriminate].
    destruct (truthy_str cn) eqn:Hcn; cbn [negb]; [|discriminate].
    destruct document_fields as [cols|]; [|discriminate].
    destruct (Trigger_init _ _) as [b|e]; cbn [py.bind]; [|discriminate].
    intros [= <-]. cbn. repeat split. now exists cols.
  - intros -> ->. reflexivity.
Qed.

Lemma UpdateSearchVector_init_validates_witness :
  @UpdateSearchVector.__init__ sample.api UpdateSearchVector.UpdateSearchVector
    None None (Some ["body"]) None
  = Raise (ValueError ("Must provide " ++ dq ++ "vector_field" ++ dq
                       ++ " to update search vector"))
  /\ @UpdateSearchVector.__init__ sample.api UpdateSearchVector.UpdateSearchVector
       None (Some "body_vector") (Some []) None
     = Raise (ValueError ("Must provide " ++ dq ++ "document_fields" ++ dq
                          ++ " to update search vector")).
Proof.
  split.
  - exact (proj1 (@UpdateSearchVector_init_validates sample.api
                    UpdateSearchVector.UpdateSearchVector None None (Some ["body"]) None)
                 eq_refl).
  - exact (proj1 (proj2 (@UpdateSearchVector_init_validates sample.api
                           UpdateSearchVector.UpdateSearchVector None (Some "body_vector")
                           (Some []) None))
                 eq_refl eq_refl).
Defined.

(** X13.  A SoftDelete without a field, as argument or class attribute,
    is refused with ValueError whatever its value; one that is constructed
    has a field, and rendering it can fail only because the model has no
    such field, never for another reason: on a model with the field it
    yields the UPDATE body. *)
Theorem SoftDelete_constructed_renders `{A : api}
    (cls : SoftDelete.Class_) (name condition field : option string)
    (value : kwarg py.value) (model : Model) :
  (truthy_str (or_str field (SoftDelete.cls_field cls)) = false ->
   SoftDelete.__init__ cls name condition field value
   = Raise (ValueError ("Must provide " ++ dq ++ "field" ++ dq ++ " for soft delete")))
  /\ (forall self,
        SoftDelete.__init__ cls name condition field value = Ok self ->
        truthy_str (SoftDelete.field self) = true
        /\ ((exists col,
               get_field_column model (SoftDelete.field self) = Ok col
               /\ SoftDelete.get_func self model
                  = Ok (print_body (SoftDelete_body self model col)))
            \/ (exists n,
                  lookup_field n (fields model) = None
                  /\ SoftDelete.field self = Some n
                  /\ SoftDelete.get_func self model = Raise (FieldDoesNotExist n)))).
Proof.
  split.
  - unfold SoftDelete.__init__. now intros ->.
  - intros self Hinit.
    assert (Hf : truthy_str (SoftDelete.field self) = true).
    { unfold SoftDelete.__init__ in Hinit.
      destruct (truthy_str (or_str field (SoftDelete.cls_field cls))) eqn:Hf;
        cbn [negb] in Hinit; [|discriminate].
      destruct (Trigger_init _ _) as [b|e]; cbn [py.bind] in Hinit; [|discriminate].
      injection Hinit as <-. exact Hf. }
    split; [exact Hf|].
    destruct (SoftDelete.field self) as [n|] eqn:En; [|discriminate].
    destruct (lookup_field n (fields model)) as [col|] eqn:El.
    + left. exists col.
      assert (Hc : get_field_column model (Some n) = Ok col)
        by (unfold get_field_column; now rewrite El).
      split; [exact Hc|]. apply SoftDelete_get_func_parses. now rewrite En.
    + right. exists n. repeat split; try assumption.
      unfold SoftDelete.get_func, get_field_column. now rewrite En, El.
Qed.

Lemma SoftDelete_constructed_renders_witness :
  let self :=
    {| SoftDelete.field := Some "is_active"; SoftDelete.value_ := Bool false;
       SoftDelete.base := {| name := None; when := Some Before;
                             operation := Some Delete; condition := None |} |} in
  @SoftDelete.__init__ sample.api SoftDelete.SoftDelete None None (Some "is_active") _unset
  = Ok self
  /\ @SoftDelete.get_func sample.api self sample.model
     = Ok (print_body (@SoftDelete_body sample.api self sample.model "is_active")).
Proof.
  intros self. split; [reflexivity|].
  destruct (proj2 (@SoftDelete_constructed_renders sample.api SoftDelete.SoftDelete
                     None None (Some "is_active") _unset sample.model) self eq_refl)
    as [_ [(col & Hcol & Hrender) | (n & Hmiss & Hn & _)]].
  - injection Hcol as <-. exact Hrender.
  - injection Hn as <-. discriminate Hmiss.
Defined.

(** X14.  An FSM that was constructed renders on every model that has its
    field, with a non-empty transition list in the body; on a model
    without the field [get_func] raises FieldDoesNotExist, and it fails in
    no other way. *)
Theorem FSM_constructed_renders `{A : api}
    (cls : FSM.Class_) (name condition field : option string)
    (transitions : option (list (string * string))) (model : Model) (self : FSM.t) :
  FSM.__init__ cls name condition field transitions = Ok self ->
  (exists n col t ts,
     FSM.field self = Some n /\ lookup_field n (fields model) = Some col
     /\ FSM.transitions self = Some (t :: ts)
     /\ FSM.get_func self model = Ok (print_body (FSM_body (quote col) n (t :: ts))))
  \/ (exists n,
        FSM.field self = Some n /\ lookup_field n (fields model) = None
        /\ FSM.get_func self model = Raise (FieldDoesNotExist n)).
Proof.
  intros Hinit. unfold FSM.__init__ in Hinit.
  destruct (truthy_str (or_str field (FSM.cls_field cls))) eqn:Hf;
    cbn [negb] in Hinit; [|discriminate].
  destruct (truthy_list (or_list transitions (FSM.cls_transitions cls))) eqn:Ht;
    cbn [negb] in Hinit; [|discriminate].
  destruct (Trigger_init _ _) as [b|e]; cbn [py.bind] in Hinit; [|discriminate].
  injection Hinit as <-. cbn [FSM.field FSM.transitions].
  destruct (or_str field (FSM.cls_field cls)) as [n|] eqn:En; [|discriminate].
  destruct (or_list transitions (FSM.cls_transitions cls)) as [[|t ts]|] eqn:Ets;
    try discriminate.
  destruct (lookup_field n (fields model)) as [col|] eqn:El.
  - left. exists n, col, t, ts.
    split; [reflexivity|]. split; [exact El|]. split; [reflexivity|].
    assert (Hc : get_field_column model (Some n) = Ok col)
      by (unfold get_field_column; now rewrite El).
    exact (FSM_get_func_parses
             {| FSM.field := Some n; FSM.transitions := Some (t :: ts); FSM.base := b |}
             model col (t :: ts) Hc eq_refl).
  - right. exists n.
    split; [reflexivity|]. split; [exact El|].
    unfold FSM.get_func, get_field_column. cbn [FSM.field]. now rewrite El.
Qed.

Lemma FSM_constructed_renders_witness :
  let self :=
    {| FSM.field := Some "status"; FSM.transitions := Some [("draft", "published")];
       FSM.base := {| name := None; when := Some Before;
                      operation := Some Update; condition := None |} |} in
  @FSM.__init__ sample.api FSM.FSM None None (Some "status")
    (Some [("draft", "published")]) = Ok self
  /\ @FSM.get_func sample.api self sample.model
     = Ok (print_body (FSM_body (@quote sample.api "status") "status"
                                [("draft", "published")])).
Proof.
  intros self. split; [reflexivity|].
  destruct (@FSM_constructed_renders sample.api FSM.FSM None None (Some "status")
              (Some [("draft", "published")]) sample.model self eq_refl)
    as [(n & col & t & ts & Hn & Hl & Ht & Hrender) | (n & Hn & Hl & _)];
    injection Hn as <-.
  - injection Hl as <-. injection Ht as <- <-. exact Hrender.
  - discriminate Hl.
Defined.

(** The columns of the document fields: one per field, in order, or the
    first field the model does not have. *)
Lemma document_cols_cases (model : Model) (fs : list string) :
  (exists cols,
     UpdateSearchVector.document_cols model fs = Ok cols
     /\ Forall2 (fun f c => lookup_field f (fields model) = Some c) fs cols)
  \/ (exists pre n post,
        fs = (pre ++ n :: post)%list
        /\ Forall (fun f => lookup_field f (fields model) <> None) pre
        /\ lookup_field n (fields model) = None
        /\ UpdateSearchVector.document_cols model fs = Raise (FieldDoesNotExist n)).
Proof.
  induction fs as [|f fs IH].
  - left. exists []. split; [reflexivity | constructor].
  - cbn [UpdateSearchVector.document_cols]. unfold get_field_column.
    destruct (lookup_field f (fields model)) as [c|] eqn:El; cbn [py.bind].
    + destruct IH as [(cols & -> & Hall) | (pre & n & post & -> & Hpre & Hn & ->)].
      * left. exists (c :: cols). split; [reflexivity | now constructor].
      * right. exists (f :: pre), n, post. repeat split; try assumption.
        constructor; [congruence | exact Hpre].
    + right. exists [], f, fs. repeat split; [constructor | exact El].
Qed.

(** X15.  An UpdateSearchVector that was constructed renders its trigger
    on every model that has the document fields and the vector field,
    passing one quoted column per document field in the order given; on
    another model [render_trigger] raises FieldDoesNotExist for the first
    document field the model lacks, or else for the vector field, and it
    fails in no other way. *)
Theorem UpdateSearchVector_constructed_renders `{A : api}
    (cls : UpdateSearchVector.Class_) (name vector_field : option string)
    (document_fields : option (list string)) (config_name : option string)
    (model : Model) (function : option string) (self : UpdateSearchVector.t) :
  UpdateSearchVector.__init__ cls name vector_field document_fields config_name = Ok self ->
  exists fs v config,
    UpdateSearchVector.document_fields self = Some fs
    /\ UpdateSearchVector.vector_field self = Some v
    /\ UpdateSearchVector.config_name self = Some config
    /\ ((exists cols vcol,
           Forall2 (fun f c => lookup_field f (fields model) = Some c) fs cols
           /\ lookup_field v (fields model) = Some vcol
           /\ UpdateSearchVector.render_trigger self model function
              = Ok (Trigger_render_trigger (UpdateSearchVector.base self) model
                      (Some ("tsvector_update_trigger(" ++ quote vcol ++ ", "
                             ++ quote config ++ ", "
                             ++ join ", " (map quote cols) ++ ")"))))
        \/ (exists pre n post,
              fs = (pre ++ n :: post)%list
              /\ Forall (fun f => lookup_field f (fields model) <> None) pre
              /\ lookup_field n (fields model) = None
              /\ UpdateSearchVector.render_trigger self model function
                 = Raise (FieldDoesNotExist n))
        \/ (Forall (fun f => lookup_field f (fields model) <> None) fs
            /\ lookup_field v (fields model) = None
            /\ UpdateSearchVector.render_trigger self model function
               = Raise (FieldDoesNotExist v))).
Proof.
  intros Hinit. unfold UpdateSearchVector.__init__ in Hinit.
  destruct (truthy_str (or_str vector_field _)) eqn:Hvf; cbn [negb] in Hinit;
    [|discriminate].
  destruct (truthy_list (or_list document_fields _)) eqn:Hdfs; cbn [negb] in Hinit;
    [|discriminate].
  destruct (truthy_str (or_str config_name _)) eqn:Hcn; cbn [negb] in Hinit;
    [|discriminate].
  destruct document_fields as [args|]; [|discriminate].
  destruct (Trigger_init _ _) as [b|e]; cbn [py.bind] in Hinit; [|discriminate].
  injection Hinit as <-.
  destruct (or_list (Some args) _) as [fs|] eqn:Efs; [|discriminate].
  destruct (or_str vector_field _) as [v|] eqn:Ev; [|discriminate].
  destruct (or_str config_name _) as [config|] eqn:Ec; [|discriminate].
  exists fs, v, config. repeat split.
  unfold UpdateSearchVector.render_trigger.
  cbn [UpdateSearchVector.document_fields UpdateSearchVector.vector_field
       UpdateSearchVector.config_name UpdateSearchVector.base].
  destruct (document_cols_cases model fs)
    as [(cols & Hcols & Hall) | (pre & n & post & Hfs & Hpre & Hn & Hcols)];
    rewrite Hcols; cbn [py.bind].
  - unfold get_field_column.
    destruct (lookup_field v (fields model)) as [vcol|] eqn:El; cbn [py.bind].
    + left. exists cols, vcol. repeat split; try assumption.
    + right; right. repeat split.
      clear -Hall. induction Hall as [|f c fs cols Hf _ IH]; constructor;
        [congruence | exact IH].
  - right; left. now exists pre, n, post.
Qed.

Lemma UpdateSearchVector_constructed_renders_witness :
  let self :=
    {| UpdateSearchVector.__class__ := UpdateSearchVector.UpdateSearchVector;
       UpdateSearchVector.vector_field := Some "title_body_vector";
       UpdateSearchVector.document_fields := Some ["title"; "body"];
       UpdateSearchVector.config_name := Some "pg_catalog.english";
       UpdateSearchVector.base :=
         {| name := Some "search"; when := Some Before;
            operation := Some (Or Insert (UpdateOf ["title"; "body"]));
            condition := None |} |} in
  @UpdateSearchVector.__init__ sample.api UpdateSearchVector.UpdateSearchVector
    (Some "search") (Some "title_body_vector") (Some ["title"; "body"]) None = Ok self
  /\ exists statement,
       @UpdateSearchVector.render_trigger sample.api self SearchModel None = Ok statement.
Proof.
  intros self. split; [reflexivity|].
  destruct (@UpdateSearchVector_constructed_renders sample.api
              UpdateSearchVector.UpdateSearchVector (Some "search")
              (Some "title_body_vector") (Some ["title"; "body"]) None SearchModel None
              self eq_refl)
    as (fs & v & config & Hfs & Hv & _ & [(cols & vcol & _ & _ & Hrender)
        | [(pre & n & post & Hsplit & Hpre & Hn & _) | (_ & Hn & _)]]).
  - now eexists.
  - injection Hfs as <-. exfalso.
    destruct pre as [|p1 pre]; cbn in Hsplit.
    + injection Hsplit as <- _. vm_compute in Hn. discriminate Hn.
    + injection Hsplit as _ Hsplit. destruct pre as [|p2 pre]; cbn in Hsplit.
      * injection Hsplit as <- _. vm_compute in Hn. discriminate Hn.
      * injection Hsplit as _ Hsplit. destruct pre; discriminate Hsplit.
  - injection Hv as <-. vm_compute in Hn. discriminate Hn.
Defined.
